(** * Enterprise Gateway application: lifecycle and configuration

    A shallow embedding of [enterprise_gateway/enterprisegatewayapp.py]
    (class [EnterpriseGatewayApp]) and the properties of its tunable
    resolution, initialisation order, web-application settings and
    stop paths. *)

From Stdlib Require Import ZArith List String Ascii Bool Lia.
From stdpp Require Import base gmap sets list strings pretty.
Import ListNotations.

Local Open Scope string_scope.
Local Open Scope list_scope.
Local Open Scope Z_scope.

(** ** Python values and the builtins the class uses *)

Module Py.

(** The values that flow through the trait defaults and the web
    application's settings dictionary. *)
Inductive pyval : Type :=
| VNone
| VBool (b : bool)
| VInt (z : Z)
| VStr (s : string)
| VList (l : list string).

Inductive exn : Type :=
| ValueError (msg : string)
| TypeError (msg : string)
| AttributeError (msg : string)
| RuntimeError (msg : string)
| KeyboardInterrupt.

Inductive result (A : Type) : Type :=
| Ok (a : A)
| Raise (e : exn).
Arguments Ok {A} a.
Arguments Raise {A} e.

Definition rbind {A B} (r : result A) (f : A -> result B) : result B :=
  match r with
  | Ok a => f a
  | Raise e => Raise e
  end.

(** [bool(x)]: Python truthiness. *)
Definition truthy (v : pyval) : bool :=
  match v with
  | VNone => false
  | VBool b => b
  | VInt z => negb (z =? 0)
  | VStr s => negb (String.eqb s EmptyString)
  | VList l => match l with [] => false | _ => true end
  end.

(** [x == y] on the values above (a bool never equals a str, and so on;
    [True == 1] is the one cross-type equality Python has here). *)
Definition py_eq (x y : pyval) : bool :=
  match x, y with
  | VNone, VNone => true
  | VBool a, VBool b => Bool.eqb a b
  | VInt a, VInt b => a =? b
  | VBool a, VInt b | VInt b, VBool a => (if a then 1 else 0) =? b
  | VStr a, VStr b => String.eqb a b
  | VList a, VList b => bool_decide (a = b)
  | _, _ => false
  end.

(** [str.lower()] on one character of ASCII text: only the capitals A to Z
    move. Bytes above 127 (the UTF-8 encoding of other characters) are
    kept, so on text with capitals outside ASCII this is not what Python
    computes; what is stated about such text below is restricted to what
    does not depend on them. *)
Definition ascii_lower (c : ascii) : ascii :=
  let n := nat_of_ascii c in
  if ((65 <=? n) && (n <=? 90))%nat then ascii_of_nat (n + 32) else c.

Fixpoint lower (s : string) : string :=
  match s with
  | EmptyString => EmptyString
  | String c rest => String (ascii_lower c) (lower rest)
  end.

(** [s.split(sep)] for a one-character separator: never the empty list,
    [''.split(',') == ['']]. *)
Fixpoint split (sep : ascii) (s : string) : list string :=
  match s with
  | EmptyString => [EmptyString]
  | String c rest =>
      if Ascii.eqb c sep then EmptyString :: split sep rest
      else match split sep rest with
           | [] => [String c EmptyString]
           | w :: ws => String c w :: ws
           end
  end.

(** Method calls on a dynamically typed receiver. *)
Definition str_lower (v : pyval) : result pyval :=
  match v with
  | VStr s => Ok (VStr (lower s))
  | _ => Raise (AttributeError "lower")
  end.

Definition str_split (sep : ascii) (v : pyval) : result pyval :=
  match v with
  | VStr s => Ok (VList (split sep s))
  | _ => Raise (AttributeError "split")
  end.

(** [int(s)] for a string of plain decimal text: surrounding white space
    is dropped, then an optional sign and a non-empty run of decimal
    digits. The digit grouping underscore and the digit limit of later
    Python versions and digits outside ASCII are left out, and the message
    of the ValueError is the bare text without the quoting of [repr];
    nothing below depends on which texts are accepted or on the message. *)
Definition is_space (c : ascii) : bool :=
  let n := nat_of_ascii c in
  ((n =? 32) || ((9 <=? n) && (n <=? 13)))%nat.

Fixpoint lstrip (s : string) : string :=
  match s with
  | String c rest => if is_space c then lstrip rest else s
  | EmptyString => EmptyString
  end.

Fixpoint rstrip (s : string) : string :=
  match s with
  | EmptyString => EmptyString
  | String c rest =>
      match rstrip rest with
      | EmptyString => if is_space c then EmptyString else String c EmptyString
      | r => String c r
      end
  end.

Definition strip (s : string) : string := rstrip (lstrip s).

Definition digit_of (c : ascii) : option Z :=
  let n := nat_of_ascii c in
  if ((48 <=? n) && (n <=? 57))%nat then Some (Z.of_nat (n - 48)) else None.

Fixpoint digits (acc : Z) (s : string) : option Z :=
  match s with
  | EmptyString => Some acc
  | String c rest =>
      match digit_of c with
      | Some d => digits (10 * acc + d) rest
      | None => None
      end
  end.

Definition unsigned_of_str (s : string) : option Z :=
  match s with
  | EmptyString => None
  | _ => digits 0 s
  end.

Definition int_of_str (s : string) : option Z :=
  match strip s with
  | String "-" rest => Z.opp <$> unsigned_of_str rest
  | String "+" rest => unsigned_of_str rest
  | body => unsigned_of_str body
  end.

(** [int(x)]. *)
Definition py_int (v : pyval) : result Z :=
  match v with
  | VInt z => Ok z
  | VBool b => Ok (if b then 1 else 0)
  | VStr s =>
      match int_of_str s with
      | Some z => Ok z
      | None => Raise (ValueError ("invalid literal for int() with base 10: " +:+ s))
      end
  | VNone | VList _ => Raise (TypeError "int() argument must be a string or a number")
  end.

(** [os.getenv(key, default)]: the variable's value when it is set (the
    empty string included), the default otherwise. *)
Definition getenv (environ : gmap string string) (key : string) (default : pyval) : pyval :=
  match environ !! key with
  | Some v => VStr v
  | None => default
  end.

End Py.
Import Py.

(** ** Tunable settings: the [@default] methods of the class *)

Definition remote_hosts_env := "EG_REMOTE_HOSTS".
Definition remote_hosts_default_value := "localhost".

Definition remote_hosts_default (environ : gmap string string) : result pyval :=
  str_split "," (getenv environ remote_hosts_env (VStr remote_hosts_default_value)).

Definition yarn_endpoint_env := "EG_YARN_ENDPOINT".

Definition yarn_endpoint_default (environ : gmap string string) : result pyval :=
  Ok (getenv environ yarn_endpoint_env VNone).

Definition alt_yarn_endpoint_env := "EG_ALT_YARN_ENDPOINT".

Definition alt_yarn_endpoint_default (environ : gmap string string) : result pyval :=
  Ok (getenv environ alt_yarn_endpoint_env VNone).

Definition yarn_endpoint_security_enabled_env := "EG_YARN_ENDPOINT_SECURITY_ENABLED".
Definition yarn_endpoint_security_enabled_default_value := false.

Definition yarn_endpoint_security_enabled_default (environ : gmap string string) : result pyval :=
  Ok (VBool (truthy (getenv environ yarn_endpoint_security_enabled_env
                       (VBool yarn_endpoint_security_enabled_default_value)))).

Definition conductor_endpoint_env := "EG_CONDUCTOR_ENDPOINT".
Definition conductor_endpoint_default_value := VNone.

Definition conductor_endpoint_default (environ : gmap string string) : result pyval :=
  Ok (getenv environ conductor_endpoint_env conductor_endpoint_default_value).

Definition impersonation_enabled_env := "EG_IMPERSONATION_ENABLED".

Definition impersonation_enabled_default (environ : gmap string string) : result pyval :=
  rbind (str_lower (getenv environ impersonation_enabled_env (VStr "false")))
        (fun lowered => Ok (VBool (truthy (VBool (py_eq lowered (VStr "true")))))).

Definition unauthorized_users_env := "EG_UNAUTHORIZED_USERS".
Definition unauthorized_users_default_value := "root".

Definition unauthorized_users_default (environ : gmap string string) : result pyval :=
  str_split "," (getenv environ unauthorized_users_env (VStr unauthorized_users_default_value)).

Definition authorized_users_env := "EG_AUTHORIZED_USERS".

Definition authorized_users_default (environ : gmap string string) : result pyval :=
  let au_env := getenv environ authorized_users_env VNone in
  match au_env with
  | VNone => Ok (VList [])
  | _ => str_split "," au_env
  end.

Definition port_range_env := "EG_PORT_RANGE".
Definition port_range_default_value := "0..0".

Definition port_range_default (environ : gmap string string) : result pyval :=
  Ok (getenv environ port_range_env (VStr port_range_default_value)).

Definition max_kernels_per_user_env := "EG_MAX_KERNELS_PER_USER".
Definition max_kernels_per_user_default_value := (-1).

Definition max_kernels_per_user_default (environ : gmap string string) : result pyval :=
  rbind (py_int (getenv environ max_kernels_per_user_env (VInt max_kernels_per_user_default_value)))
        (fun n => Ok (VInt n)).

Definition ws_ping_interval_env := "EG_WS_PING_INTERVAL_SECS".
Definition ws_ping_interval_default_value := 30.

Definition ws_ping_interval_default (environ : gmap string string) : result pyval :=
  rbind (py_int (getenv environ ws_ping_interval_env (VInt ws_ping_interval_default_value)))
        (fun n => Ok (VInt n)).

(** The eleven tunables of the class, with the environment key and the
    [@default] method of each. *)
Inductive tunable : Type :=
| REMOTE_HOSTS
| YARN_ENDPOINT
| ALT_YARN_ENDPOINT
| YARN_ENDPOINT_SECURITY_ENABLED
| CONDUCTOR_ENDPOINT
| IMPERSONATION_ENABLED
| UNAUTHORIZED_USERS
| AUTHORIZED_USERS
| PORT_RANGE
| MAX_KERNELS_PER_USER
| WS_PING_INTERVAL_SECS.

Definition env_key (t : tunable) : string :=
  match t with
  | REMOTE_HOSTS => remote_hosts_env
  | YARN_ENDPOINT => yarn_endpoint_env
  | ALT_YARN_ENDPOINT => alt_yarn_endpoint_env
  | YARN_ENDPOINT_SECURITY_ENABLED => yarn_endpoint_security_enabled_env
  | CONDUCTOR_ENDPOINT => conductor_endpoint_env
  | IMPERSONATION_ENABLED => impersonation_enabled_env
  | UNAUTHORIZED_USERS => unauthorized_users_env
  | AUTHORIZED_USERS => authorized_users_env
  | PORT_RANGE => port_range_env
  | MAX_KERNELS_PER_USER => max_kernels_per_user_env
  | WS_PING_INTERVAL_SECS => ws_ping_interval_env
  end.

Definition default_method (t : tunable) : gmap string string -> result pyval :=
  match t with
  | REMOTE_HOSTS => remote_hosts_default
  | YARN_ENDPOINT => yarn_endpoint_default
  | ALT_YARN_ENDPOINT => alt_yarn_endpoint_default
  | YARN_ENDPOINT_SECURITY_ENABLED => yarn_endpoint_security_enabled_default
  | CONDUCTOR_ENDPOINT => conductor_endpoint_default
  | IMPERSONATION_ENABLED => impersonation_enabled_default
  | UNAUTHORIZED_USERS => unauthorized_users_default
  | AUTHORIZED_USERS => authorized_users_default
  | PORT_RANGE => port_range_default
  | MAX_KERNELS_PER_USER => max_kernels_per_user_default
  | WS_PING_INTERVAL_SECS => ws_ping_interval_default
  end.

(** The value each trait is declared with: what a tunable resolves to when
    nothing is configured and its variable is unset. (The two set-valued
    traits are given by the list of their members.) *)
Definition builtin_default (t : tunable) : pyval :=
  match t with
  | REMOTE_HOSTS => VList [remote_hosts_default_value]
  | YARN_ENDPOINT => VNone
  | ALT_YARN_ENDPOINT => VNone
  | YARN_ENDPOINT_SECURITY_ENABLED => VBool yarn_endpoint_security_enabled_default_value
  | CONDUCTOR_ENDPOINT => conductor_endpoint_default_value
  | IMPERSONATION_ENABLED => VBool false
  | UNAUTHORIZED_USERS => VList [unauthorized_users_default_value]
  | AUTHORIZED_USERS => VList []
  | PORT_RANGE => VStr port_range_default_value
  | MAX_KERNELS_PER_USER => VInt max_kernels_per_user_default_value
  | WS_PING_INTERVAL_SECS => VInt ws_ping_interval_default_value
  end.

(** What each [@default] method computes from the text of its variable,
    method by method. *)
Definition from_env (t : tunable) (s : string) : result pyval :=
  match t with
  | REMOTE_HOSTS | UNAUTHORIZED_USERS | AUTHORIZED_USERS => Ok (VList (split "," s))
  | YARN_ENDPOINT | ALT_YARN_ENDPOINT | CONDUCTOR_ENDPOINT | PORT_RANGE => Ok (VStr s)
  | YARN_ENDPOINT_SECURITY_ENABLED => Ok (VBool (negb (String.eqb s EmptyString)))
  | IMPERSONATION_ENABLED => Ok (VBool (String.eqb (lower s) "true"))
  | MAX_KERNELS_PER_USER | WS_PING_INTERVAL_SECS =>
      match int_of_str s with
      | Some z => Ok (VInt z)
      | None => Raise (ValueError ("invalid literal for int() with base 10: " +:+ s))
      end
  end.

(** The type each tunable is declared with: [List], [Unicode], [Bool],
    [Set] or [Integer]. *)
Inductive kind : Type := KString | KInt | KBool | KList | KSet.

Definition declared_kind (t : tunable) : kind :=
  match t with
  | REMOTE_HOSTS => KList
  | YARN_ENDPOINT | ALT_YARN_ENDPOINT | CONDUCTOR_ENDPOINT | PORT_RANGE => KString
  | YARN_ENDPOINT_SECURITY_ENABLED | IMPERSONATION_ENABLED => KBool
  | UNAUTHORIZED_USERS | AUTHORIZED_USERS => KSet
  | MAX_KERNELS_PER_USER | WS_PING_INTERVAL_SECS => KInt
  end.

(** The conversion of a variable's text in the specification's words: a
    string is taken as it is, a number is parsed, a boolean is true for
    "true" in any mix of cases, a list or a set is the text split on
    commas (for a set, the members; the trait makes the set of them). *)
Definition spec_convert (k : kind) (s : string) : result pyval :=
  match k with
  | KString => Ok (VStr s)
  | KInt => rbind (py_int (VStr s)) (fun n => Ok (VInt n))
  | KBool => Ok (VBool (String.eqb (lower s) "true"))
  | KList | KSet => Ok (VList (split "," s))
  end.

(** The resolution rule in the specification's words: the override when
    present, else the variable's value when it is set and non-empty, else
    the built-in default. *)
Definition spec_resolve (t : tunable) (override : option pyval)
    (environ : gmap string string) : result pyval :=
  match override with
  | Some v => Ok v
  | None =>
      match environ !! env_key t with
      | Some s =>
          if String.eqb s EmptyString then Ok (builtin_default t)
          else spec_convert (declared_kind t) s
      | None => Ok (builtin_default t)
      end
  end.

(** The same rule without the test for the empty string: the override when
    present, else the variable's value whenever it is set, else the
    built-in default. *)
Definition amended_value (t : tunable) (override : option pyval)
    (environ : gmap string string) : result pyval :=
  match override with
  | Some v => Ok v
  | None =>
      match environ !! env_key t with
      | Some s => spec_convert (declared_kind t) s
      | None => Ok (builtin_default t)
      end
  end.

(** Modelled from the spec: reading a trait. The trait machinery is a
    library the class is built on and is not in the sources. An explicitly
    configured value takes precedence and the [@default] method is consulted
    only without one; either value then goes through the trait's own
    validation and coercion, which is the parameter [validate] (it may turn
    a list into a set, and it may reject the value). The environment is
    only read: it is handed back as it was. *)
Definition trait_read (validate : tunable -> pyval -> result pyval) (t : tunable)
    (override : option pyval) (environ : gmap string string)
    : result pyval * gmap string string :=
  (match override with
   | Some v => validate t v
   | None => rbind (default_method t environ) (validate t)
   end,
   environ).

(** The boolean reading in the specification's words: true exactly for the
    text "true" in any mix of cases. *)
Definition spec_bool_of_env (s : string) : bool :=
  bool_decide (lower s = "true").

(** ** The application object *)

Inductive signum : Type := SIGHUP | SIGINT | SIGTERM.

(** What [signal.signal] installs: [SIG_IGN] or the bound method
    [self._signal_stop]. *)
Inductive disposition : Type := SIG_IGN | Handler_signal_stop.

(** The calls the application makes on its collaborators, in the order it
    makes them. *)
Inductive event : Type :=
| NewKernelSpecManager
| LoadNotebook (uri : string)
| NewKernelSpecManagerOfClass
| NewKernelManager (default_kernel_name : option string)
| NewSessionManager
| NewKernelSessionManager (default_kernel_name : option string)
| StartSessions
| LoadApiModule (api : string)
| CreatePersonality
| PersonalityInitConfigurables
| SuperInitWebapp
| HttpServerListen
| SuperStart
| LogInfo (msg : string)
| LogWarning (msg : string)
| IOLoopCurrent
| SignalSignal (sig : signum) (h : disposition)
| IOLoopStart
| HttpServerStop
| IOLoopStop
| Shutdown.

#[global] Instance signum_eq_dec : EqDecision signum.
Proof. solve_decision. Defined.
#[global] Instance disposition_eq_dec : EqDecision disposition.
Proof. solve_decision. Defined.
#[global] Instance event_eq_dec : EqDecision event.
Proof. solve_decision. Defined.

(** The closures handed to [io_loop.add_callback]: the class has one, the
    local function [_stop] of [stop]. *)
Inductive callback : Type := Closure_stop.

(** Configuration traits read by the methods below. Those that the class
    inherits (seed_uri, default_kernel_name, prespawn_count, max_kernels,
    api, keyfile, ip, port) are optional where the trait allows [None]. *)
Record Traits : Type := mkTraits {
  seed_uri : option string;
  default_kernel_name : string;
  prespawn_count : option Z;
  max_kernels : option Z;
  api : string;
  keyfile : option string;
  ip : string;
  port : Z;
  impersonation_enabled : bool;
  unauthorized_users : gset string;
  ws_ping_interval : Z
}.

(** What the surroundings answer: whether the kernel manager built from
    [kernel_manager_class] has an [initialize_culler] attribute, what
    [getpass.getuser()] returns, the package version, and the settings
    dictionary the superclass leaves in [web_app]. *)
Record Deps : Type := mkDeps {
  has_initialize_culler : bool;
  getuser : string;
  version : string;
  web_app_settings : gmap string pyval
}.

(** The mutable part: [web_app.settings], the callbacks queued on the IO
    loop, and the calls made so far. *)
Record App : Type := mkApp {
  settings : gmap string pyval;
  callbacks : list callback;
  trace : list event
}.

(** Methods run on the application and either return or raise. *)
Definition M (A : Type) : Type := App -> result A * App.

Definition ret {A} (a : A) : M A := fun app => (Ok a, app).

Definition bind {A B} (m : M A) (k : A -> M B) : M B :=
  fun app =>
    match m app with
    | (Ok a, app') => k a app'
    | (Raise e, app') => (Raise e, app')
    end.

Definition raise {A} (e : exn) : M A := fun app => (Raise e, app).

Declare Scope prog_scope.
Delimit Scope prog_scope with prog.
Notation "x <- c1 ;; c2" := (bind c1 (fun x => c2))
  (at level 100, c1 at next level, c2 at level 200, right associativity) : prog_scope.
Notation "c1 ;; c2" := (bind c1 (fun _ => c2))
  (at level 100, c2 at level 200, right associativity) : prog_scope.
Local Open Scope prog_scope.

Definition emit (e : event) : M unit :=
  fun app => (Ok tt, mkApp (settings app) (callbacks app) (trace app ++ [e])).

Definition set_setting (key : string) (v : pyval) : M unit :=
  fun app => (Ok tt, mkApp (<[key := v]> (settings app)) (callbacks app) (trace app)).

Definition add_callback (cb : callback) : M unit :=
  fun app => (Ok tt, mkApp (settings app) (callbacks app ++ [cb]) (trace app)).

(** [try: body except E: handler]. *)
Definition try_except {A} (body : M A) (handler : exn -> option (M A)) : M A :=
  fun app =>
    match body app with
    | (Ok a, app') => (Ok a, app')
    | (Raise e, app') =>
        match handler e with
        | Some h => h app'
        | None => (Raise e, app')
        end
    end.

(** [try: body finally: fin]. *)
Definition try_finally {A} (body : M A) (fin : M unit) : M A :=
  fun app =>
    match body app with
    | (r, app') =>
        match fin app' with
        | (Ok _, app'') => (r, app'')
        | (Raise e, app'') => (Raise e, app'')
        end
    end.

Definition skip : M unit := ret tt.

(** *** [init_configurables] *)

Definition culler_warning : string :=
  "Older version of Notebook detected - idle kernels will not be culled.  " +:+
  "Culling requires Notebook >= 5.1.0.".

Definition prespawn_error (p m : Z) : string :=
  "cannot prespawn " +:+ pretty p +:+ "; more than max kernels " +:+ pretty m.

(** The truth value of an optional integer trait: [None] and [0] are false. *)
Definition truthy_int (x : option Z) : bool :=
  match x with
  | Some z => truthy (VInt z)
  | None => false
  end.

(** [self.max_kernels and self.prespawn_count > self.max_kernels], under
    an outer [if self.prespawn_count]. *)
Definition prespawn_check (t : Traits) : M unit :=
  if truthy_int (prespawn_count t) then
    match prespawn_count t, max_kernels t with
    | Some p, Some m =>
        if truthy (VInt m) && (m <? p) then raise (RuntimeError (prespawn_error p m))
        else skip
    | _, _ => skip
    end
  else skip.

(** [kwargs]: a default kernel name is passed on only when one is given. *)
Definition kwargs_of (t : Traits) : option string :=
  if truthy (VStr (default_kernel_name t)) then Some (default_kernel_name t) else None.

(** Every constructor call and every call on a collaborator is recorded in
    the trace, in program order; the attributes the results are stored in
    ([kernel_manager], [contents_manager], ...) are not part of the state.
    This is the method on the runs in which every such call returns;
    [init_configurables_with] below lets each of them raise. *)
Definition init_configurables (t : Traits) (d : Deps) : M unit :=
  emit NewKernelSpecManager ;;
  match seed_uri t with
  | Some uri => emit (LoadNotebook uri)
  | None => skip
  end ;;
  let kwargs := kwargs_of t in
  emit NewKernelSpecManagerOfClass ;;
  emit (NewKernelManager kwargs) ;;
  (if negb (has_initialize_culler d) then emit (LogWarning culler_warning) else skip) ;;
  emit NewSessionManager ;;
  emit (NewKernelSessionManager kwargs) ;;
  emit StartSessions ;;
  prespawn_check t ;;
  emit (LoadApiModule (api t)) ;;
  emit CreatePersonality ;;
  emit PersonalityInitConfigurables.

(** *** [init_webapp] *)

Definition super_init_webapp (d : Deps) : M unit :=
  fun app => (Ok tt, mkApp (web_app_settings d) (callbacks app) (trace app ++ [SuperInitWebapp])).

Definition init_webapp (t : Traits) (d : Deps) : M unit :=
  super_init_webapp d ;;
  set_setting "allow_remote_access" (VBool true) ;;
  set_setting "ws_ping_interval" (VInt (ws_ping_interval t * 1000)).

(** *** [start] *)

(** How [io_loop.start()] ends: it returns once the loop is stopped, or a
    [KeyboardInterrupt] is raised inside it. *)
Inductive loop_outcome : Type := LoopReturned | LoopInterrupted.

Definition io_loop_start (o : loop_outcome) : M unit :=
  emit IOLoopStart ;;
  match o with
  | LoopReturned => skip
  | LoopInterrupted => raise KeyboardInterrupt
  end.

Definition available_message (t : Traits) (d : Deps) : string :=
  "Jupyter Enterprise Gateway " +:+ version d +:+ " is available at http" +:+
  (if match keyfile t with Some k => truthy (VStr k) | None => false end then "s" else EmptyString)
  +:+ "://" +:+ ip t +:+ ":" +:+ pretty (port t).

Definition impersonation_warning (gateway_user : string) : string :=
  "Impersonation is enabled and gateway user '" +:+ gateway_user +:+
  "' is NOT specified in the set of " +:+
  "unauthorized users!  Kernels may execute as that user with elevated privileges.".

Definition start (t : Traits) (d : Deps) (o : loop_outcome) : M unit :=
  emit SuperStart ;;
  emit (LogInfo (available_message t d)) ;;
  (if impersonation_enabled t then
     let gateway_user := getuser d in
     if bool_decide (lower gateway_user ∉ unauthorized_users t)
     then emit (LogWarning (impersonation_warning gateway_user))
     else skip
   else skip) ;;
  emit IOLoopCurrent ;;
  emit (SignalSignal SIGHUP SIG_IGN) ;;
  emit (SignalSignal SIGTERM Handler_signal_stop) ;;
  try_finally
    (try_except (io_loop_start o)
       (fun e =>
          match e with
          | KeyboardInterrupt =>
              Some (emit (LogInfo "Interrupted...") ;; emit (SignalSignal SIGINT SIG_IGN))
          | _ => None
          end))
    (emit Shutdown).

(** *** [stop] and [_signal_stop] *)

(** The local function [_stop] of [stop]. *)
Definition _stop : M unit :=
  emit HttpServerStop ;;
  emit IOLoopStop.

Definition stop : M unit := add_callback Closure_stop.

Definition signal_message : string := "Received signal to terminate Enterprise Gateway.".

Definition _signal_stop (sig : signum) (frame : unit) : M unit :=
  emit (LogInfo signal_message) ;;
  emit IOLoopStop.

(** One turn of the IO loop over its queue: the callbacks queued so far
    are taken off and called in the order they were added. *)
Definition run_callback (cb : callback) : M unit :=
  match cb with
  | Closure_stop => _stop
  end.

Fixpoint run_all (cbs : list callback) : M unit :=
  match cbs with
  | [] => skip
  | cb :: rest => run_callback cb ;; run_all rest
  end.

Definition run_callbacks : M unit :=
  fun app => run_all (callbacks app) (mkApp (settings app) [] (trace app)).

(** [stop()] called [n] times in a row. *)
Fixpoint stop_times (n : nat) : M unit :=
  match n with
  | O => skip
  | S k => stop ;; stop_times k
  end.

(** The stop sequence the specification asks of the signal handler: queue
    the closure that stops the listener and then the loop, and do nothing
    else in the handler. *)
Definition spec_signal_stop (sig : signum) (frame : unit) : M unit :=
  add_callback Closure_stop.

(** Modelled from the spec: the driver the class inherits
    ([KernelGatewayApp.initialize] and [launch_instance]), which is not in
    the sources. Initialisation runs to completion before the listener is
    created and before [start] enters the loop. *)
Definition init_http_server : M unit := emit HttpServerListen.

Definition initialize (t : Traits) (d : Deps) : M unit :=
  init_configurables t d ;;
  init_webapp t d ;;
  init_http_server.


Definition app0 : App := mkApp ∅ [] [].

Definition count_event (e : event) (l : list event) : nat :=
  length (filter (fun x => x = e) l).

(** The calls [init_configurables] makes up to the recovery of persisted
    sessions, and those it makes once the prespawn check has passed. *)
Definition construction_events (t : Traits) (d : Deps) : list event :=
  [NewKernelSpecManager] ++
  match seed_uri t with Some uri => [LoadNotebook uri] | None => [] end ++
  [NewKernelSpecManagerOfClass; NewKernelManager (kwargs_of t)] ++
  (if has_initialize_culler d then [] else [LogWarning culler_warning]) ++
  [NewSessionManager; NewKernelSessionManager (kwargs_of t)].

Definition personality_events (t : Traits) : list event :=
  [LoadApiModule (api t); CreatePersonality; PersonalityInitConfigurables].

(** The exception of the prespawn check, if it raises one. *)
Definition prespawn_verdict (t : Traits) : option exn :=
  match prespawn_count t, max_kernels t with
  | Some p, Some m =>
      if negb (p =? 0) && negb (m =? 0) && (m <? p)
      then Some (RuntimeError (prespawn_error p m)) else None
  | _, _ => None
  end.

(** The calls [start] makes. *)
Definition start_events (t : Traits) (d : Deps) (o : loop_outcome) : list event :=
  [SuperStart; LogInfo (available_message t d)] ++
  (if impersonation_enabled t && bool_decide (lower (getuser d) ∉ unauthorized_users t)
   then [LogWarning (impersonation_warning (getuser d))] else []) ++
  [IOLoopCurrent; SignalSignal SIGHUP SIG_IGN; SignalSignal SIGTERM Handler_signal_stop;
   IOLoopStart] ++
  match o with
  | LoopReturned => []
  | LoopInterrupted => [LogInfo "Interrupted..."; SignalSignal SIGINT SIG_IGN]
  end ++
  [Shutdown].

(** What running a queue of closures adds to the trace. *)
Definition stop_work (cbs : list callback) : list event :=
  concat (map (fun _ => [HttpServerStop; IOLoopStop]) cbs).

(** *** [init_configurables] with collaborators that may raise *)

(** What the collaborators do when called: each call recorded in the trace
    either returns or raises, and the API module either has a
    [create_personality] attribute or not. *)
Record Outcomes : Type := mkOutcomes {
  raises : event -> option exn;
  has_create_personality : bool
}.

Definition all_return : Outcomes := mkOutcomes (fun _ => None) true.

(** A call is made, and then returns or raises. *)
Definition call (o : Outcomes) (e : event) : M unit :=
  emit e ;;
  match raises o e with
  | Some x => raise x
  | None => skip
  end.

(** [init_configurables] again, statement by statement, with every call
    free to raise; an exception leaves the method at once. With
    [all_return] this is [init_configurables] above. *)
Definition init_configurables_with (o : Outcomes) (t : Traits) (d : Deps) : M unit :=
  call o NewKernelSpecManager ;;
  match seed_uri t with
  | Some uri => call o (LoadNotebook uri)
  | None => skip
  end ;;
  let kwargs := kwargs_of t in
  call o NewKernelSpecManagerOfClass ;;
  call o (NewKernelManager kwargs) ;;
  (if negb (has_initialize_culler d) then call o (LogWarning culler_warning) else skip) ;;
  call o NewSessionManager ;;
  call o (NewKernelSessionManager kwargs) ;;
  call o StartSessions ;;
  prespawn_check t ;;
  call o (LoadApiModule (api t)) ;;
  (if has_create_personality o then skip else raise (AttributeError "create_personality")) ;;
  call o CreatePersonality ;;
  call o PersonalityInitConfigurables.

(** Modelled from the spec: the inherited [initialize], as above, around
    [init_configurables_with]. *)
Definition initialize_with (o : Outcomes) (t : Traits) (d : Deps) : M unit :=
  init_configurables_with o t d ;;
  init_webapp t d ;;
  init_http_server.

(** The calls of a list up to and including the first one that raises,
    with its exception; [None] when all return. *)
Fixpoint first_failure (o : Outcomes) (l : list event) : option (list event * exn) :=
  match l with
  | [] => None
  | e :: rest =>
      match raises o e with
      | Some x => Some ([e], x)
      | None =>
          match first_failure o rest with
          | Some (pre, x) => Some (e :: pre, x)
          | None => None
          end
      end
  end.

(** How [init_configurables_with] ends and the calls it made. *)
Definition init_outcome (o : Outcomes) (t : Traits) (d : Deps) : result unit * list event :=
  let before := construction_events t d ++ [StartSessions] in
  match first_failure o before with
  | Some (pre, x) => (Raise x, pre)
  | None =>
      match prespawn_verdict t with
      | Some x => (Raise x, before)
      | None =>
          match raises o (LoadApiModule (api t)) with
          | Some x => (Raise x, before ++ [LoadApiModule (api t)])
          | None =>
              if has_create_personality o then
                match first_failure o [CreatePersonality; PersonalityInitConfigurables] with
                | Some (pre, x) => (Raise x, before ++ LoadApiModule (api t) :: pre)
                | None => (Ok tt, before ++ personality_events t)
                end
              else (Raise (AttributeError "create_personality"),
                    before ++ [LoadApiModule (api t)])
          end
      end
  end.

(** [all(ord(c) < 128 for c in s)]. *)
Fixpoint is_ascii_str (s : string) : bool :=
  match s with
  | EmptyString => true
  | String c rest => (nat_of_ascii c <? 128)%nat && is_ascii_str rest
  end.

(** *** Further members of the class and builtins *)

(** [_default_log_format]: the log format with milliseconds. *)
Definition _default_log_format : string :=
  "%(color)s[%(levelname)1.1s %(asctime)s.%(msecs).03d %(name)s]%(end_color)s %(message)s".

(** [sep.join(l)] for a one-character separator. *)
Fixpoint join (sep : ascii) (l : list string) : string :=
  match l with
  | [] => EmptyString
  | s :: rest =>
      match rest with
      | [] => s
      | _ => s +:+ String sep (join sep rest)
      end
  end.

(** [sep in s]. *)
Fixpoint mem_char (sep : ascii) (s : string) : bool :=
  match s with
  | EmptyString => false
  | String c rest => Ascii.eqb c sep || mem_char sep rest
  end.

(** The tunables whose [@default] method splits the variable on commas. *)
Definition list_tunable (t : tunable) : Prop :=
  t = REMOTE_HOSTS \/ t = UNAUTHORIZED_USERS \/ t = AUTHORIZED_USERS.

(** The tunables whose [@default] method converts the variable with [int]. *)
Definition int_tunable (t : tunable) : Prop :=
  t = MAX_KERNELS_PER_USER \/ t = WS_PING_INTERVAL_SECS.

(** The events a run added to the trace it started from. *)
Definition added (before after : App) : list event :=
  drop (length (trace before)) (trace after).

(** ** Properties *)

(** Closes a goal saying that an event is none of the events of an
    explicit list. *)
Ltac absent :=
  let H := fresh "H" in
  intros H;
  repeat (apply elem_of_cons in H as [H|H]; [discriminate H|]);
  apply elem_of_nil in H; destruct H.

(** *** Builtins *)

Lemma split_nonempty (sep : ascii) (s : string) : split sep s <> [].
Proof.
  destruct s as [|c rest]; simpl; [discriminate|].
  destruct (Ascii.eqb c sep); [discriminate|].
  destruct (split sep rest); discriminate.
Qed.

Lemma split_no_sep (sep : ascii) (s : string) :
  (forall c, In c (list_ascii_of_string s) -> c <> sep) -> split sep s = [s].
Proof.
  induction s as [|c rest IH]; simpl; intros Hno; [reflexivity|].
  destruct (Ascii.eqb_spec c sep) as [->|_].
  - exfalso. apply (Hno sep); [left|]; reflexivity.
  - rewrite IH; [reflexivity|]. intros c' Hc'. apply Hno. right. exact Hc'.
Qed.

Lemma ascii_lower_idem (c : ascii) : ascii_lower (ascii_lower c) = ascii_lower c.
Proof. destruct c as [[] [] [] [] [] [] [] []]; reflexivity. Qed.

Lemma lower_idem (s : string) : lower (lower s) = lower s.
Proof.
  induction s as [|c rest IH]; simpl; [reflexivity|].
  rewrite ascii_lower_idem, IH. reflexivity.
Qed.

(** Which characters lower to each letter of "true". *)
Lemma ascii_lower_t (c : ascii) : ascii_lower c = "t"%char <-> c = "t"%char \/ c = "T"%char.
Proof.
  split.
  - destruct c as [[] [] [] [] [] [] [] []]; vm_compute; intros H;
      first [discriminate H | left; reflexivity | right; reflexivity].
  - intros [-> | ->]; reflexivity.
Qed.

Lemma ascii_lower_r (c : ascii) : ascii_lower c = "r"%char <-> c = "r"%char \/ c = "R"%char.
Proof.
  split.
  - destruct c as [[] [] [] [] [] [] [] []]; vm_compute; intros H;
      first [discriminate H | left; reflexivity | right; reflexivity].
  - intros [-> | ->]; reflexivity.
Qed.

Lemma ascii_lower_u (c : ascii) : ascii_lower c = "u"%char <-> c = "u"%char \/ c = "U"%char.
Proof.
  split.
  - destruct c as [[] [] [] [] [] [] [] []]; vm_compute; intros H;
      first [discriminate H | left; reflexivity | right; reflexivity].
  - intros [-> | ->]; reflexivity.
Qed.

Lemma ascii_lower_e (c : ascii) : ascii_lower c = "e"%char <-> c = "e"%char \/ c = "E"%char.
Proof.
  split.
  - destruct c as [[] [] [] [] [] [] [] []]; vm_compute; intros H;
      first [discriminate H | left; reflexivity | right; reflexivity].
  - intros [-> | ->]; reflexivity.
Qed.

(** [s.lower() == 'true'] holds exactly for the four-letter words that
    spell "true" in some mix of cases. *)
Lemma lower_is_true (s : string) :
  lower s = "true" <->
  exists c1 c2 c3 c4,
    s = String c1 (String c2 (String c3 (String c4 EmptyString))) /\
    (c1 = "t" \/ c1 = "T")%char /\ (c2 = "r" \/ c2 = "R")%char /\
    (c3 = "u" \/ c3 = "U")%char /\ (c4 = "e" \/ c4 = "E")%char.
Proof.
  split.
  - destruct s as [|c1 [|c2 [|c3 [|c4 [|c5 rest]]]]]; simpl; try discriminate.
    intros H. injection H as H1 H2 H3 H4.
    exists c1, c2, c3, c4. split; [reflexivity|].
    rewrite <- ascii_lower_t, <- ascii_lower_r, <- ascii_lower_u, <- ascii_lower_e.
    auto.
  - intros (c1 & c2 & c3 & c4 & -> & H1 & H2 & H3 & H4). simpl.
    apply ascii_lower_t in H1. apply ascii_lower_r in H2.
    apply ascii_lower_u in H3. apply ascii_lower_e in H4.
    rewrite H1, H2, H3, H4. reflexivity.
Qed.

Lemma getenv_set (environ : gmap string string) (key s : string) (default : pyval) :
  environ !! key = Some s -> getenv environ key default = VStr s.
Proof. unfold getenv. intros ->. reflexivity. Qed.

Lemma getenv_unset (environ : gmap string string) (key : string) (default : pyval) :
  environ !! key = None -> getenv environ key default = default.
Proof. unfold getenv. intros ->. reflexivity. Qed.

(** *** Tunable resolution *)

Lemma default_method_set (t : tunable) (environ : gmap string string) (s : string) :
  environ !! env_key t = Some s -> default_method t environ = from_env t s.
Proof.
  intros Hset.
  destruct t; simpl in Hset; simpl;
    unfold remote_hosts_default, yarn_endpoint_default, alt_yarn_endpoint_default,
      yarn_endpoint_security_enabled_default, conductor_endpoint_default,
      impersonation_enabled_default, unauthorized_users_default,
      authorized_users_default, port_range_default, max_kernels_per_user_default,
      ws_ping_interval_default;
    rewrite (getenv_set _ _ s _ Hset); simpl; try reflexivity;
    destruct (int_of_str s); reflexivity.
Qed.

Lemma default_method_unset (t : tunable) (environ : gmap string string) :
  environ !! env_key t = None -> default_method t environ = Ok (builtin_default t).
Proof.
  intros Hunset.
  destruct t; simpl in Hunset; simpl;
    unfold remote_hosts_default, yarn_endpoint_default, alt_yarn_endpoint_default,
      yarn_endpoint_security_enabled_default, conductor_endpoint_default,
      impersonation_enabled_default, unauthorized_users_default,
      authorized_users_default, port_range_default, max_kernels_per_user_default,
      ws_ping_interval_default;
    rewrite (getenv_unset _ _ _ Hunset); reflexivity.
Qed.

(** Apart from the YARN security flag, each [@default] method converts the
    text of its variable as the tunable's declared type asks. *)
Lemma from_env_spec_convert (t : tunable) (s : string) :
  t <> YARN_ENDPOINT_SECURITY_ENABLED ->
  from_env t s = spec_convert (declared_kind t) s.
Proof.
  intros Hne. destruct t; simpl; try reflexivity; try contradiction;
    destruct (int_of_str s); reflexivity.
Qed.

Lemma default_method_amended (t : tunable) (environ : gmap string string) :
  t <> YARN_ENDPOINT_SECURITY_ENABLED \/ environ !! env_key t = None ->
  default_method t environ = amended_value t None environ.
Proof.
  intros Hcase. unfold amended_value.
  destruct (environ !! env_key t) as [s|] eqn:Hkey.
  - rewrite (default_method_set _ _ _ Hkey).
    destruct Hcase as [Hne|Hnone]; [|discriminate Hnone].
    apply from_env_spec_convert. exact Hne.
  - apply default_method_unset. exact Hkey.
Qed.

(** A [@default] method looks at its own variable only. *)
Lemma default_method_own_variable (t : tunable) (environ environ' : gmap string string) :
  environ' !! env_key t = environ !! env_key t ->
  default_method t environ' = default_method t environ.
Proof.
  intros Hsame. destruct (environ !! env_key t) as [s|] eqn:Hkey.
  - rewrite (default_method_set _ _ _ Hkey). apply default_method_set. congruence.
  - rewrite (default_method_unset _ _ Hkey). apply default_method_unset. congruence.
Qed.

(** C4, as the class resolves: for every tunable, the value that goes
    through the trait's validation is the explicit override when there is
    one; else the text of the tunable's environment variable, converted to
    the declared type, whenever that variable is set, the empty string
    included; else the built-in default. (For the YARN security flag the
    conversion of a set variable is left aside.) The result depends on the
    override and on the tunable's own variable only, and the environment is
    left as it was. *)
Theorem trait_read_precedence (validate : tunable -> pyval -> result pyval)
    (t : tunable) (override : option pyval) (environ : gmap string string) :
  t <> YARN_ENDPOINT_SECURITY_ENABLED \/ override <> None \/
    environ !! env_key t = None ->
  fst (trait_read validate t override environ)
    = rbind (amended_value t override environ) (validate t) /\
  snd (trait_read validate t override environ) = environ /\
  (forall environ' : gmap string string,
     environ' !! env_key t = environ !! env_key t ->
     fst (trait_read validate t override environ')
       = fst (trait_read validate t override environ)).
Proof.
  intros Hcase. unfold trait_read. cbn [fst snd].
  split; [|split; [reflexivity|]].
  - destruct override as [v|]; [reflexivity|].
    rewrite default_method_amended; [reflexivity|].
    destruct Hcase as [Hne | [Hov | Hnone]]; [left; exact Hne | contradiction | right; exact Hnone].
  - intros environ' Hsame. destruct override as [v|]; [reflexivity|].
    rewrite (default_method_own_variable t environ environ' Hsame). reflexivity.
Qed.

Lemma trait_read_precedence_witness :
  let environ : gmap string string := {[ "EG_MAX_KERNELS_PER_USER" := "5" ]} in
  fst (trait_read (fun _ v => Ok v) MAX_KERNELS_PER_USER None environ) = Ok (VInt 5) /\
  snd (trait_read (fun _ v => Ok v) MAX_KERNELS_PER_USER None environ) = environ.
Proof.
  intros environ.
  destruct (trait_read_precedence (fun _ v => Ok v) MAX_KERNELS_PER_USER None environ)
    as (Hvalue & Henv & _); [left; discriminate|].
  split; [rewrite Hvalue; vm_compute; reflexivity | exact Henv].
Defined.

(** C4, counterexample: with EG_REMOTE_HOSTS set to the empty string and
    no override, the [@default] method gives the one-element list holding
    the empty string, and that is what goes through the trait (a list
    trait takes a list as it is), where the rule "set and non-empty" gives
    the built-in default ["localhost"]. *)
Lemma resolve_empty_variable_differs :
  default_method REMOTE_HOSTS {[ "EG_REMOTE_HOSTS" := EmptyString ]}
    = Ok (VList [EmptyString]) /\
  spec_resolve REMOTE_HOSTS None {[ "EG_REMOTE_HOSTS" := EmptyString ]}
    = Ok (VList ["localhost"]) /\
  fst (trait_read (fun _ v => Ok v) REMOTE_HOSTS None {[ "EG_REMOTE_HOSTS" := EmptyString ]})
    <> rbind (spec_resolve REMOTE_HOSTS None {[ "EG_REMOTE_HOSTS" := EmptyString ]})
             (fun v => Ok v).
Proof.
  split; [vm_compute; reflexivity|]. split; [vm_compute; reflexivity|].
  vm_compute. discriminate.
Qed.

(** The two rules part only on a variable that is set to the empty string. *)
Lemma amended_agrees_with_spec (t : tunable) (override : option pyval)
    (environ : gmap string string) :
  environ !! env_key t <> Some EmptyString ->
  amended_value t override environ = spec_resolve t override environ.
Proof.
  intros Hne. unfold amended_value, spec_resolve.
  destruct override as [v|]; [reflexivity|].
  destruct (environ !! env_key t) as [s|] eqn:Hkey; [|reflexivity].
  destruct s as [|c rest]; [congruence | reflexivity].
Qed.

(** *** Boolean tunables *)

Lemma eqb_bool_decide (x y : string) : String.eqb x y = bool_decide (x = y).
Proof.
  destruct (String.eqb_spec x y) as [Heq|Hne].
  - rewrite bool_decide_eq_true_2; [reflexivity | exact Heq].
  - rewrite bool_decide_eq_false_2; [reflexivity | exact Hne].
Qed.

(** EG_IMPERSONATION_ENABLED is read as the specification says: true
    exactly for "true" in any mix of cases. *)
Lemma impersonation_enabled_reads (environ : gmap string string) (s : string) :
  environ !! impersonation_enabled_env = Some s ->
  impersonation_enabled_default environ = Ok (VBool (spec_bool_of_env s)).
Proof.
  intros Hset. unfold impersonation_enabled_default, spec_bool_of_env.
  rewrite (getenv_set _ _ s _ Hset). simpl.
  rewrite eqb_bool_decide. reflexivity.
Qed.

(** So impersonation is enabled from the environment exactly by the
    sixteen spellings of "true". *)
Lemma impersonation_enabled_true_iff (environ : gmap string string) (s : string) :
  environ !! impersonation_enabled_env = Some s ->
  impersonation_enabled_default environ = Ok (VBool true) <->
  exists c1 c2 c3 c4,
    s = String c1 (String c2 (String c3 (String c4 EmptyString))) /\
    (c1 = "t" \/ c1 = "T")%char /\ (c2 = "r" \/ c2 = "R")%char /\
    (c3 = "u" \/ c3 = "U")%char /\ (c4 = "e" \/ c4 = "E")%char.
Proof.
  intros Hset. rewrite (impersonation_enabled_reads _ _ Hset), <- lower_is_true.
  unfold spec_bool_of_env. split.
  - intros [= Hb]. apply bool_decide_eq_true in Hb. exact Hb.
  - intros Hl. rewrite bool_decide_eq_true_2; [reflexivity | exact Hl].
Qed.

(** EG_YARN_ENDPOINT_SECURITY_ENABLED is read by truthiness of the text:
    every non-empty string enables it. *)
Lemma yarn_endpoint_security_enabled_reads (environ : gmap string string) (s : string) :
  environ !! yarn_endpoint_security_enabled_env = Some s ->
  yarn_endpoint_security_enabled_default environ = Ok (VBool (negb (String.eqb s EmptyString))).
Proof.
  intros Hset. unfold yarn_endpoint_security_enabled_default.
  rewrite (getenv_set _ _ s _ Hset). reflexivity.
Qed.

(** C5, the class on EG_YARN_ENDPOINT_SECURITY_ENABLED = "false": the
    tunable resolves to true, although "false" is not "true" in any case;
    the same text in EG_IMPERSONATION_ENABLED resolves to false. *)
Theorem yarn_security_false_reads_true :
  yarn_endpoint_security_enabled_default
    {[ "EG_YARN_ENDPOINT_SECURITY_ENABLED" := "false" ]} = Ok (VBool true) /\
  spec_bool_of_env "false" = false /\
  impersonation_enabled_default {[ "EG_IMPERSONATION_ENABLED" := "false" ]} = Ok (VBool false).
Proof. repeat split; vm_compute; reflexivity. Qed.

(** *** Running the methods *)

Lemma init_webapp_run (t : Traits) (d : Deps) (app : App) :
  init_webapp t d app =
  (Ok tt,
   mkApp (<["ws_ping_interval" := VInt (ws_ping_interval t * 1000)]>
            (<["allow_remote_access" := VBool true]> (web_app_settings d)))
         (callbacks app) (trace app ++ [SuperInitWebapp])).
Proof. reflexivity. Qed.

(** C9: after [init_webapp], whatever the traits and whatever settings the
    superclass produced, [settings['allow_remote_access']] is [True]. *)
Theorem init_webapp_allows_remote_access (t : Traits) (d : Deps) (app : App) :
  fst (init_webapp t d app) = Ok tt /\
  settings (snd (init_webapp t d app)) !! "allow_remote_access" = Some (VBool true).
Proof.
  rewrite init_webapp_run. simpl. split; [reflexivity|].
  rewrite lookup_insert_ne by discriminate.
  apply lookup_insert_eq.
Qed.

(** C10: after [init_webapp], [settings['ws_ping_interval']] is the
    configured number of seconds times 1000; a configured 0 is stored as 0. *)
Theorem init_webapp_ping_interval_millis (t : Traits) (d : Deps) (app : App) :
  settings (snd (init_webapp t d app)) !! "ws_ping_interval"
    = Some (VInt (ws_ping_interval t * 1000)) /\
  (ws_ping_interval t = 0 ->
   settings (snd (init_webapp t d app)) !! "ws_ping_interval" = Some (VInt 0)).
Proof.
  rewrite init_webapp_run. simpl.
  assert (H : (<["ws_ping_interval" := VInt (ws_ping_interval t * 1000)]>
                 (<["allow_remote_access" := VBool true]> (web_app_settings d)))
              !! "ws_ping_interval" = Some (VInt (ws_ping_interval t * 1000)))
    by apply lookup_insert_eq.
  split; [exact H|].
  intros Hzero. rewrite H, Hzero. reflexivity.
Qed.

Lemma init_webapp_ping_interval_millis_witness :
  let t := mkTraits None EmptyString None None "kernel_gateway.jupyter_websocket"
             None "127.0.0.1" 8888 false {[ "root" ]} 0 in
  let d := mkDeps true "gateway" "1.0" ∅ in
  ws_ping_interval t = 0 /\
  settings (snd (init_webapp t d app0)) !! "ws_ping_interval" = Some (VInt 0).
Proof.
  intros t d. split; [reflexivity|].
  apply (init_webapp_ping_interval_millis t d app0). reflexivity.
Defined.

(** *** The stop paths *)

Lemma signal_stop_run (sig : signum) (frame : unit) (app : App) :
  _signal_stop sig frame app =
  (Ok tt, mkApp (settings app) (callbacks app)
                (trace app ++ [LogInfo signal_message; IOLoopStop])).
Proof.
  unfold _signal_stop, bind, emit. simpl. rewrite <- app_assoc. reflexivity.
Qed.

Lemma run_callback_run (cb : callback) (app : App) :
  run_callback cb app =
  (Ok tt, mkApp (settings app) (callbacks app) (trace app ++ [HttpServerStop; IOLoopStop])).
Proof.
  destruct cb. unfold run_callback, _stop, bind, emit. simpl.
  rewrite <- app_assoc. reflexivity.
Qed.

Lemma run_all_run (cbs : list callback) (app : App) :
  run_all cbs app =
  (Ok tt, mkApp (settings app) (callbacks app) (trace app ++ stop_work cbs)).
Proof.
  revert app. induction cbs as [|cb rest IH]; intros app.
  - destruct app. unfold stop_work. simpl. rewrite app_nil_r. reflexivity.
  - simpl. unfold bind. rewrite run_callback_run, IH. simpl.
    unfold stop_work. simpl. rewrite <- app_assoc. reflexivity.
Qed.

Lemma stop_times_run (n : nat) (app : App) :
  stop_times n app =
  (Ok tt, mkApp (settings app) (callbacks app ++ replicate n Closure_stop) (trace app)).
Proof.
  revert app. induction n as [|k IH]; intros app.
  - destruct app. simpl. rewrite app_nil_r. reflexivity.
  - simpl. unfold bind, stop, add_callback. rewrite IH. simpl.
    rewrite <- app_assoc. reflexivity.
Qed.

Lemma count_event_app (e : event) (l1 l2 : list event) :
  count_event e (l1 ++ l2) = (count_event e l1 + count_event e l2)%nat.
Proof. unfold count_event. rewrite filter_app, length_app. reflexivity. Qed.

Lemma count_stop_work (e : event) (cbs : list callback) :
  e = HttpServerStop \/ e = IOLoopStop ->
  count_event e (stop_work cbs) = length cbs.
Proof.
  intros He. induction cbs as [|cb rest IH]; [reflexivity|].
  change (stop_work (cb :: rest)) with ([HttpServerStop; IOLoopStop] ++ stop_work rest).
  rewrite count_event_app, IH.
  destruct He as [-> | ->]; reflexivity.
Qed.

(** C1, the class on SIGTERM: the handler logs and stops the IO loop in
    the handler itself; it queues nothing (the callback queue is as it
    was), and the HTTP server is never stopped, not even once the loop runs
    its queue. The sequence the specification describes would instead
    queue the stop closure and touch nothing else. *)
Theorem signal_stop_stops_loop_inline :
  _signal_stop SIGTERM tt app0
    = (Ok tt, mkApp ∅ [] [LogInfo signal_message; IOLoopStop]) /\
  spec_signal_stop SIGTERM tt app0 = (Ok tt, mkApp ∅ [Closure_stop] []) /\
  HttpServerStop ∉ trace (snd ((_signal_stop SIGTERM tt ;; run_callbacks) app0)).
Proof.
  split; [reflexivity|]. split; [reflexivity|].
  apply (bool_decide_unpack _). vm_compute. exact I.
Qed.

(** For every signal and every state the handler leaves the queue alone. *)
Lemma signal_stop_queues_nothing (sig : signum) (frame : unit) (app : App) :
  callbacks (snd (_signal_stop sig frame app)) = callbacks app /\
  IOLoopStop ∈ trace (snd (_signal_stop sig frame app)).
Proof.
  rewrite signal_stop_run. simpl. split; [reflexivity|].
  rewrite elem_of_app. right. set_solver.
Qed.

(** C2, as the class behaves: every call of [stop()] queues one more
    [_stop] closure and does nothing else; after [n] calls the queue has
    grown by [n], and when the loop runs its queue the HTTP server and the
    IO loop are each stopped once per queued closure. *)
Theorem stop_times_queues_each (n : nat) (app : App) :
  fst (stop_times n app) = Ok tt /\
  callbacks (snd (stop_times n app)) = callbacks app ++ replicate n Closure_stop /\
  trace (snd (stop_times n app)) = trace app /\
  count_event HttpServerStop (trace (snd (run_callbacks (snd (stop_times n app)))))
    = (count_event HttpServerStop (trace app) + (length (callbacks app) + n))%nat /\
  count_event IOLoopStop (trace (snd (run_callbacks (snd (stop_times n app)))))
    = (count_event IOLoopStop (trace app) + (length (callbacks app) + n))%nat.
Proof.
  rewrite stop_times_run. simpl.
  split; [reflexivity|]. split; [reflexivity|]. split; [reflexivity|].
  unfold run_callbacks. simpl. rewrite run_all_run. simpl.
  rewrite !count_event_app, !count_stop_work by auto.
  rewrite length_app, length_replicate. split; reflexivity.
Qed.

(** C2, counterexample: two calls of [stop()] on a fresh application queue
    two closures, the second call changes the state the first one left,
    and the loop then stops the HTTP server twice and the IO loop twice,
    not once. *)
Lemma stop_twice_stops_twice :
  callbacks (snd (stop_times 2 app0)) = [Closure_stop; Closure_stop] /\
  snd (stop_times 2 app0) <> snd (stop_times 1 app0) /\
  count_event HttpServerStop (trace (snd ((stop_times 2 ;; run_callbacks) app0))) = 2%nat /\
  count_event IOLoopStop (trace (snd ((stop_times 2 ;; run_callbacks) app0))) = 2%nat /\
  count_event HttpServerStop (trace (snd ((stop_times 2 ;; run_callbacks) app0))) <> 1%nat.
Proof.
  split; [reflexivity|].
  split; [vm_compute; discriminate|].
  assert (H : count_event HttpServerStop
                (trace (snd ((stop_times 2 ;; run_callbacks) app0))) = 2%nat)
    by (vm_compute; reflexivity).
  split; [exact H|]. split; [vm_compute; reflexivity|].
  rewrite H. discriminate.
Qed.

(** *** [init_configurables] and [start], step by step *)


Lemma prespawn_check_run (t : Traits) (app : App) :
  prespawn_check t app =
  (match prespawn_verdict t with Some e => Raise e | None => Ok tt end, app).
Proof.
  unfold prespawn_check, prespawn_verdict, truthy_int.
  destruct (prespawn_count t) as [p|]; [|reflexivity].
  destruct (max_kernels t) as [m|]; simpl.
  - destruct (p =? 0), (m =? 0), (m <? p); reflexivity.
  - destruct (p =? 0); reflexivity.
Qed.

Lemma init_configurables_run (t : Traits) (d : Deps) (app : App) :
  init_configurables t d app =
  match prespawn_verdict t with
  | None =>
      (Ok tt, mkApp (settings app) (callbacks app)
                (trace app ++ construction_events t d ++ [StartSessions] ++ personality_events t))
  | Some e =>
      (Raise e, mkApp (settings app) (callbacks app)
                  (trace app ++ construction_events t d ++ [StartSessions]))
  end.
Proof.
  unfold init_configurables, construction_events, personality_events, bind, skip, ret, emit.
  destruct (seed_uri t) as [uri|], (has_initialize_culler d); simpl;
    rewrite prespawn_check_run; destruct (prespawn_verdict t); simpl;
    rewrite <- ?app_assoc; reflexivity.
Qed.

Lemma start_run (t : Traits) (d : Deps) (o : loop_outcome) (app : App) :
  start t d o app =
  (Ok tt, mkApp (settings app) (callbacks app) (trace app ++ start_events t d o)).
Proof.
  unfold start, start_events, try_finally, try_except, io_loop_start, bind, skip, ret,
    raise, emit.
  destruct (impersonation_enabled t); simpl;
    [destruct (bool_decide (lower (getuser d) ∉ unauthorized_users t))|];
    destruct o; simpl; rewrite <- ?app_assoc; reflexivity.
Qed.



Lemma construction_events_only (t : Traits) (d : Deps) (e : event) :
  e ∈ construction_events t d ->
  e = NewKernelSpecManager \/ (exists uri, e = LoadNotebook uri) \/
  e = NewKernelSpecManagerOfClass \/ e = NewKernelManager (kwargs_of t) \/
  e = LogWarning culler_warning \/ e = NewSessionManager \/
  e = NewKernelSessionManager (kwargs_of t).
Proof.
  unfold construction_events.
  destruct (seed_uri t) as [uri|], (has_initialize_culler d); simpl; intros H;
    repeat (apply elem_of_cons in H as [H|H]; [subst e; eauto 10|]);
    apply elem_of_nil in H; destruct H.
Qed.


(** *** The prespawn check *)

Lemma prespawn_verdict_over (t : Traits) (p m : Z) :
  prespawn_count t = Some p -> max_kernels t = Some m ->
  p <> 0 -> m <> 0 -> m < p ->
  prespawn_verdict t = Some (RuntimeError (prespawn_error p m)).
Proof.
  intros Hp Hm Hp0 Hm0 Hlt. unfold prespawn_verdict. rewrite Hp, Hm.
  destruct (Z.eqb_spec p 0) as [|_]; [contradiction|].
  destruct (Z.eqb_spec m 0) as [|_]; [contradiction|].
  destruct (Z.ltb_spec m p) as [_|]; [reflexivity | lia].
Qed.

Lemma prespawn_verdict_some (t : Traits) (e : exn) :
  prespawn_verdict t = Some e ->
  exists p m, e = RuntimeError (prespawn_error p m) /\
              prespawn_count t = Some p /\ max_kernels t = Some m /\
              p <> 0 /\ m <> 0 /\ m < p.
Proof.
  unfold prespawn_verdict.
  destruct (prespawn_count t) as [p|]; [|discriminate].
  destruct (max_kernels t) as [m|]; [|discriminate].
  destruct (Z.eqb_spec p 0); [discriminate|].
  destruct (Z.eqb_spec m 0); [discriminate|].
  destruct (Z.ltb_spec m p); [|discriminate].
  simpl. intros [= <-]. exists p, m. auto 10.
Qed.

Lemma added_trace (before after : App) (l : list event) :
  trace after = trace before ++ l -> added before after = l.
Proof. unfold added. intros ->. apply drop_app_length. Qed.

(** **** Collaborators that may raise *)

Lemma init_configurables_with_run (o : Outcomes) (t : Traits) (d : Deps) (app : App) :
  init_configurables_with o t d app =
  (fst (init_outcome o t d),
   mkApp (settings app) (callbacks app) (trace app ++ snd (init_outcome o t d))).
Proof.
  unfold init_configurables_with, init_outcome, construction_events, personality_events,
    call, bind, emit, raise, skip, ret.
  destruct (seed_uri t) as [uri|], (has_initialize_culler d); simpl;
  repeat (match goal with
          | |- context [prespawn_check t ?a] => rewrite (prespawn_check_run t a)
          | |- context [match raises o ?e with _ => _ end] =>
              destruct (raises o e); simpl
          | |- context [match prespawn_verdict t with _ => _ end] =>
              destruct (prespawn_verdict t); simpl
          | |- context [if has_create_personality o then _ else _] =>
              destruct (has_create_personality o); simpl
          end;
          try (rewrite <- ?app_assoc; reflexivity)).
Qed.

Lemma init_configurables_with_added (o : Outcomes) (t : Traits) (d : Deps) (app : App) :
  added app (snd (init_configurables_with o t d app)) = snd (init_outcome o t d).
Proof. apply added_trace. rewrite init_configurables_with_run. reflexivity. Qed.

Lemma first_failure_none (o : Outcomes) (l : list event) :
  first_failure o l = None <-> forall e, e ∈ l -> raises o e = None.
Proof.
  induction l as [|e rest IH]; simpl.
  - split; [intros _ e He; apply elem_of_nil in He; destruct He | reflexivity].
  - destruct (raises o e) as [x|] eqn:He.
    + split; [discriminate|]. intros Hall.
      rewrite (Hall e) in He; [discriminate He | apply elem_of_cons; left; reflexivity].
    + destruct (first_failure o rest) as [[pre x]|].
      * split; [discriminate|]. intros Hall.
        assert (Hc : Some (pre, x) = None)
          by (apply IH; intros e' He'; apply Hall; apply elem_of_cons; right; exact He').
        discriminate Hc.
      * split; [|reflexivity]. intros _ e' He'.
        apply elem_of_cons in He' as [-> | He']; [exact He|].
        apply (proj1 IH eq_refl). exact He'.
Qed.

Lemma first_failure_prefix (o : Outcomes) (l pre : list event) (x : exn) :
  first_failure o l = Some (pre, x) -> exists post, l = pre ++ post.
Proof.
  revert pre. induction l as [|e rest IH]; simpl; intros pre; [discriminate|].
  destruct (raises o e) as [y|].
  - intros [= <- <-]. exists rest. reflexivity.
  - destruct (first_failure o rest) as [[pre' y]|]; [|discriminate].
    intros [= <- <-]. destruct (IH pre' eq_refl) as [post ->].
    exists post. reflexivity.
Qed.

(** With collaborators that all return, the two readings of the method
    are one. *)
Lemma init_configurables_with_all_return (t : Traits) (d : Deps) (app : App) :
  init_configurables_with all_return t d app = init_configurables t d app.
Proof.
  rewrite init_configurables_with_run, init_configurables_run. unfold init_outcome.
  assert (Hnone : forall l, first_failure all_return l = None)
    by (intros l; apply first_failure_none; reflexivity).
  rewrite Hnone. destruct (prespawn_verdict t); cbn [fst snd].
  - reflexivity.
  - simpl. rewrite <- ?app_assoc. reflexivity.
Qed.

Lemma initialize_with_raise (o : Outcomes) (t : Traits) (d : Deps) (app : App) (x : exn) :
  fst (init_configurables_with o t d app) = Raise x ->
  initialize_with o t d app = init_configurables_with o t d app.
Proof.
  unfold initialize_with, bind.
  destruct (init_configurables_with o t d app) as [[u|y] app']; [discriminate | reflexivity].
Qed.

Lemma not_before_check (t : Traits) (d : Deps) (e : event) :
  e = CreatePersonality \/ e = HttpServerListen ->
  e ∉ construction_events t d ++ [StartSessions].
Proof.
  intros He Hin. apply elem_of_app in Hin as [Hin|Hin].
  - apply construction_events_only in Hin.
    destruct He as [-> | ->];
      destruct Hin as [H|[[uri H]|[H|[H|[H|[H|H]]]]]]; discriminate H.
  - destruct He as [-> | ->]; revert Hin; absent.
Qed.

Lemma over_max_outcome (o : Outcomes) (t : Traits) (d : Deps) (p m : Z) :
  prespawn_verdict t = Some (RuntimeError (prespawn_error p m)) ->
  (exists x, fst (init_outcome o t d) = Raise x) /\
  (exists post, construction_events t d ++ [StartSessions] = snd (init_outcome o t d) ++ post) /\
  ((forall e, e ∈ construction_events t d ++ [StartSessions] -> raises o e = None) ->
   init_outcome o t d
   = (Raise (RuntimeError (prespawn_error p m)), construction_events t d ++ [StartSessions])).
Proof.
  intros Hv. unfold init_outcome. rewrite Hv.
  destruct (first_failure o (construction_events t d ++ [StartSessions]))
    as [[pre x]|] eqn:Hff; cbn [fst snd].
  - split; [exists x; reflexivity|].
    split; [exact (first_failure_prefix _ _ _ _ Hff)|].
    intros Hall. apply first_failure_none in Hall. rewrite Hall in Hff. discriminate Hff.
  - split; [eexists; reflexivity|].
    split; [exists []; rewrite app_nil_r; reflexivity|].
    intros _. reflexivity.
Qed.

(** C3, as the class checks. When a prespawn count and a max-kernels limit
    are both set and non-zero and the count exceeds the limit,
    [init_configurables] never returns normally, whatever its collaborators
    do: if the calls before the check all return it raises RuntimeError
    once persisted sessions have been started, and otherwise the exception
    of the earlier call leaves it; either way the personality is not
    created, nothing sequenced after it runs, and initialisation ends
    before the listener is created. When the count or the limit is unset
    or zero, the check is skipped: it raises nothing and changes nothing. *)
Theorem prespawn_over_max_raises (o : Outcomes) (t : Traits) (d : Deps) (app : App) :
  (forall p m,
     prespawn_count t = Some p -> max_kernels t = Some m ->
     p <> 0 -> m <> 0 -> m < p ->
     (exists x, fst (init_configurables_with o t d app) = Raise x) /\
     ((forall e, e ∈ construction_events t d ++ [StartSessions] -> raises o e = None) ->
      fst (init_configurables_with o t d app) = Raise (RuntimeError (prespawn_error p m)) /\
      StartSessions ∈ added app (snd (init_configurables_with o t d app))) /\
     fst (init_configurables t d app) = Raise (RuntimeError (prespawn_error p m)) /\
     (CreatePersonality ∉ added app (snd (init_configurables_with o t d app))) /\
     (forall k : M unit,
        (init_configurables_with o t d ;; k) app = init_configurables_with o t d app) /\
     (exists x, fst (initialize_with o t d app) = Raise x) /\
     (HttpServerListen ∉ added app (snd (initialize_with o t d app)))) /\
  (prespawn_count t = None \/ prespawn_count t = Some 0 \/
   max_kernels t = None \/ max_kernels t = Some 0 ->
   prespawn_check t app = (Ok tt, app)).
Proof.
  split.
  - intros p m Hp Hm Hp0 Hm0 Hlt.
    pose proof (prespawn_verdict_over t p m Hp Hm Hp0 Hm0 Hlt) as Hv.
    destruct (over_max_outcome o t d p m Hv) as ([x Hx] & [post Hpre] & Hall).
    assert (Hraise : fst (init_configurables_with o t d app) = Raise x)
      by (rewrite init_configurables_with_run; exact Hx).
    assert (Habsent : forall e, e = CreatePersonality \/ e = HttpServerListen ->
                                e ∉ added app (snd (init_configurables_with o t d app))).
    { intros e He Hin. rewrite init_configurables_with_added in Hin.
      apply (not_before_check t d e He). rewrite Hpre.
      apply elem_of_app. left. exact Hin. }
    split; [exists x; exact Hraise|].
    split.
    { intros Hret. rewrite init_configurables_with_added, init_configurables_with_run.
      rewrite (Hall Hret). cbn [fst snd]. split; [reflexivity|].
      apply elem_of_app. right. apply elem_of_cons. left. reflexivity. }
    split; [rewrite init_configurables_run, Hv; reflexivity|].
    split; [apply Habsent; left; reflexivity|].
    split.
    { intros k. unfold bind.
      destruct (init_configurables_with o t d app) as [[u|y] app']; [discriminate Hraise|].
      reflexivity. }
    rewrite (initialize_with_raise o t d app x Hraise).
    split; [exists x; exact Hraise | apply Habsent; right; reflexivity].
  - intros Hskip. rewrite prespawn_check_run. unfold prespawn_verdict.
    destruct Hskip as [-> | [-> | [-> | ->]]].
    + reflexivity.
    + destruct (max_kernels t); reflexivity.
    + destruct (prespawn_count t); reflexivity.
    + destruct (prespawn_count t) as [p|]; [|reflexivity].
      destruct (p =? 0); reflexivity.
Qed.

Lemma prespawn_over_max_raises_witness :
  let t := mkTraits None EmptyString (Some 5) (Some 3) "kernel_gateway.jupyter_websocket"
             None "127.0.0.1" 8888 false {[ "root" ]} 30 in
  let unset := mkTraits None EmptyString (Some 5) None "kernel_gateway.jupyter_websocket"
                 None "127.0.0.1" 8888 false {[ "root" ]} 30 in
  let d := mkDeps true "gateway" "1.0" ∅ in
  (fst (init_configurables_with all_return t d app0)
     = Raise (RuntimeError "cannot prespawn 5; more than max kernels 3") /\
   StartSessions ∈ added app0 (snd (init_configurables_with all_return t d app0))) /\
  (exists x, fst (initialize_with all_return t d app0) = Raise x) /\
  prespawn_check unset app0 = (Ok tt, app0).
Proof.
  intros t unset d.
  destruct (prespawn_over_max_raises all_return t d app0) as [Hover _].
  destruct (Hover 5 3) as (_ & Hexact & _ & _ & _ & Hinit & _);
    [reflexivity | reflexivity | lia | lia | lia |].
  destruct (prespawn_over_max_raises all_return unset d app0) as [_ Hskip].
  split; [apply Hexact; reflexivity|].
  split; [exact Hinit|].
  apply Hskip. right. right. left. reflexivity.
Defined.

(** C3, counterexample: with a prespawn count of 5 and a max-kernels limit
    of 0 the count exceeds the limit, yet [init_configurables] returns, the
    personality is created and initialisation goes on to the listener. *)
Lemma prespawn_over_zero_max_starts :
  let t := mkTraits None EmptyString (Some 5) (Some 0) "kernel_gateway.jupyter_websocket"
             None "127.0.0.1" 8888 false {[ "root" ]} 30 in
  let d := mkDeps true "gateway" "1.0" ∅ in
  prespawn_count t = Some 5 /\ max_kernels t = Some 0 /\ 0 < 5 /\
  fst (init_configurables t d app0) = Ok tt /\
  fst (initialize t d app0) = Ok tt /\
  CreatePersonality ∈ trace (snd (init_configurables t d app0)) /\
  HttpServerListen ∈ trace (snd (initialize t d app0)).
Proof.
  intros t d.
  split; [reflexivity|]. split; [reflexivity|]. split; [lia|].
  split; [reflexivity|]. split; [reflexivity|].
  split; apply (bool_decide_unpack _); vm_compute; exact I.
Qed.

(** *** Order of initialisation *)




(** *** The culling capability *)



(** *** The impersonation warning *)

(** [start] warns exactly when impersonation is enabled and the
    lower-cased name of the gateway user is not in the set. *)
Lemma start_warns_iff (t : Traits) (d : Deps) (o : loop_outcome) :
  LogWarning (impersonation_warning (getuser d)) ∈ start_events t d o <->
  impersonation_enabled t = true /\ lower (getuser d) ∉ unauthorized_users t.
Proof.
  unfold start_events.
  destruct (impersonation_enabled t); simpl.
  - case_bool_decide as Hin; simpl.
    + split; [intros _; split; [reflexivity | exact Hin]|].
      intros _. apply elem_of_cons. right. apply elem_of_cons. right.
      apply elem_of_cons. left. reflexivity.
    + split; [|intros [_ Hnot]; contradiction].
      destruct o; simpl; absent.
  - split; [|intros [Hf _]; discriminate Hf].
    destruct o; simpl; absent.
Qed.

(** Whether or not it warns, [start] goes on to install the signal
    handlers and to start the IO loop, and it returns. *)
Lemma start_never_blocked (t : Traits) (d : Deps) (o : loop_outcome) (app : App) :
  fst (start t d o app) = Ok tt /\
  IOLoopStart ∈ trace (snd (start t d o app)) /\
  Shutdown ∈ trace (snd (start t d o app)).
Proof.
  rewrite start_run. cbn [fst snd trace]. split; [reflexivity|].
  unfold start_events. split; rewrite !elem_of_app, ?elem_of_cons; auto 20.
Qed.

(** C7, the class on a gateway user named "Admin" with impersonation
    enabled: with "Admin" in the set of unauthorized users the warning is
    logged although the user is in the set, and with only "admin" in the
    set no warning is logged although "Admin" is not in the set. The name
    is lower-cased before the membership test. *)
Theorem start_warning_lowercases_gateway_user :
  let d := mkDeps true "Admin" "1.0" ∅ in
  let t1 := mkTraits None EmptyString None None "kernel_gateway.jupyter_websocket"
              None "127.0.0.1" 8888 true {[ "Admin" ]} 30 in
  let t2 := mkTraits None EmptyString None None "kernel_gateway.jupyter_websocket"
              None "127.0.0.1" 8888 true {[ "admin" ]} 30 in
  ("Admin" ∈ unauthorized_users t1 /\
   LogWarning (impersonation_warning "Admin") ∈ trace (snd (start t1 d LoopReturned app0))) /\
  (("Admin" ∉ unauthorized_users t2) /\
   (LogWarning (impersonation_warning "Admin") ∉ trace (snd (start t2 d LoopReturned app0)))).
Proof.
  intros d t1 t2. repeat split; apply (bool_decide_unpack _); vm_compute; exact I.
Qed.

(** ** Further properties of the class *)

(** *** Splitting and joining *)

Lemma split_plain (sep : ascii) (s : string) :
  mem_char sep s = false -> split sep s = [s].
Proof.
  induction s as [|c rest IH]; simpl; intros Hno; [reflexivity|].
  apply orb_false_iff in Hno as [Hc Hrest].
  rewrite Hc, (IH Hrest). reflexivity.
Qed.

Lemma split_append (sep : ascii) (s r : string) :
  mem_char sep s = false -> split sep (s +:+ String sep r) = s :: split sep r.
Proof.
  induction s as [|c rest IH]; simpl; intros Hno.
  - rewrite Ascii.eqb_refl. reflexivity.
  - apply orb_false_iff in Hno as [Hc Hrest].
    rewrite Hc, (IH Hrest). reflexivity.
Qed.

Lemma split_join (sep : ascii) (l : list string) :
  l <> [] -> Forall (fun s => mem_char sep s = false) l -> split sep (join sep l) = l.
Proof.
  induction l as [|a rest IH]; intros Hne Hall; [contradiction|].
  apply Forall_cons in Hall as [Ha Hrest].
  destruct rest as [|b rest].
  - simpl. apply split_plain. exact Ha.
  - change (join sep (a :: b :: rest)) with (a +:+ String sep (join sep (b :: rest))).
    rewrite (split_append _ _ _ Ha), IH; [reflexivity | discriminate | exact Hrest].
Qed.

Lemma join_split (sep : ascii) (s : string) : join sep (split sep s) = s.
Proof.
  induction s as [|c rest IH]; [reflexivity|]. simpl.
  destruct (Ascii.eqb_spec c sep) as [->|Hne].
  - pose proof (split_nonempty sep rest) as Hnil.
    destruct (split sep rest) as [|w ws] eqn:Hs; [contradiction|].
    change (join sep (EmptyString :: w :: ws)) with (String sep (join sep (w :: ws))).
    rewrite IH. reflexivity.
  - pose proof (split_nonempty sep rest) as Hnil.
    destruct (split sep rest) as [|w ws] eqn:Hs; [contradiction|].
    rewrite <- IH. destruct ws as [|w' ws]; reflexivity.
Qed.

Lemma split_pieces_plain (sep : ascii) (s : string) :
  Forall (fun w => mem_char sep w = false) (split sep s).
Proof.
  induction s as [|c rest IH]; simpl.
  - apply Forall_cons. split; [reflexivity | apply Forall_nil; exact I].
  - destruct (Ascii.eqb c sep) eqn:Hc.
    + apply Forall_cons. split; [reflexivity | exact IH].
    + destruct (split sep rest) as [|w ws]; [apply Forall_cons; split;
        [simpl; rewrite Hc; reflexivity | apply Forall_nil; exact I]|].
      apply Forall_cons in IH as [Hw Hws].
      apply Forall_cons. split; [simpl; rewrite Hc, Hw; reflexivity | exact Hws].
Qed.

(** *** The list-valued tunables *)

(** X1: remote_hosts and unauthorized_users never resolve from their
    [@default] method to an empty list: whatever the environment holds, the
    empty string included, the result is a list with at least one entry. *)
Theorem hosts_and_unauthorized_never_empty (environ : gmap string string) :
  (exists h rest, remote_hosts_default environ = Ok (VList (h :: rest))) /\
  (exists u rest, unauthorized_users_default environ = Ok (VList (u :: rest))).
Proof.
  unfold remote_hosts_default, unauthorized_users_default, getenv.
  split.
  - destruct (environ !! remote_hosts_env) as [s|]; simpl.
    + pose proof (split_nonempty "," s) as Hne.
      destruct (split "," s) as [|h rest]; [contradiction|]. eauto.
    + eexists _, _. reflexivity.
  - destruct (environ !! unauthorized_users_env) as [s|]; simpl.
    + pose proof (split_nonempty "," s) as Hne.
      destruct (split "," s) as [|h rest]; [contradiction|]. eauto.
    + eexists _, _. reflexivity.
Qed.

(** X2: authorized_users resolves from its [@default] method to the empty
    list exactly when EG_AUTHORIZED_USERS is unset; a variable that is set,
    even to the empty string, gives a list with at least one entry. *)
Theorem authorized_users_empty_iff_unset (environ : gmap string string) :
  (authorized_users_default environ = Ok (VList []) <->
   environ !! authorized_users_env = None) /\
  (forall s, environ !! authorized_users_env = Some s ->
             exists u rest, authorized_users_default environ = Ok (VList (u :: rest)) /\
                            split "," s = u :: rest).
Proof.
  unfold authorized_users_default, getenv.
  destruct (environ !! authorized_users_env) as [s|]; simpl.
  - pose proof (split_nonempty "," s) as Hne.
    destruct (split "," s) as [|u rest] eqn:Hs; [contradiction|].
    split; [split; discriminate|].
    intros s' [= <-]. exists u, rest. rewrite Hs. split; reflexivity.
  - split; [split; reflexivity|]. intros s' [=].
Qed.

Lemma authorized_users_empty_iff_unset_witness :
  exists u rest,
    authorized_users_default {[ "EG_AUTHORIZED_USERS" := EmptyString ]} = Ok (VList (u :: rest)) /\
    split "," EmptyString = u :: rest.
Proof.
  apply (proj2 (authorized_users_empty_iff_unset {[ "EG_AUTHORIZED_USERS" := EmptyString ]})).
  vm_compute. reflexivity.
Defined.

(** X3: for each list-valued tunable, a variable holding names joined by
    commas resolves to exactly those names, in order, when there is at
    least one name and no name contains a comma. *)
Theorem list_tunable_reads_joined (t : tunable) (environ : gmap string string)
    (names : list string) :
  list_tunable t -> names <> [] ->
  Forall (fun n => mem_char "," n = false) names ->
  environ !! env_key t = Some (join "," names) ->
  default_method t environ = Ok (VList names).
Proof.
  intros Ht Hne Hplain Hset.
  rewrite (default_method_set _ _ _ Hset).
  destruct Ht as [-> | [-> | ->]]; simpl; rewrite (split_join _ _ Hne Hplain); reflexivity.
Qed.

Lemma list_tunable_reads_joined_witness :
  default_method REMOTE_HOSTS {[ "EG_REMOTE_HOSTS" := "host1,host2,host3" ]}
  = Ok (VList ["host1"; "host2"; "host3"]).
Proof.
  apply (list_tunable_reads_joined REMOTE_HOSTS _ ["host1"; "host2"; "host3"]).
  - left. reflexivity.
  - discriminate.
  - repeat (apply Forall_cons; split; [reflexivity|]). apply Forall_nil. exact I.
  - vm_compute. reflexivity.
Defined.

(** X4: for each list-valued tunable whose variable is set, the resolved
    entries joined by commas give back the variable's text, and no entry
    contains a comma: splitting loses nothing. *)
Theorem list_tunable_join_gives_text (t : tunable) (environ : gmap string string)
    (s : string) :
  list_tunable t -> environ !! env_key t = Some s ->
  exists names,
    default_method t environ = Ok (VList names) /\
    join "," names = s /\
    Forall (fun n => mem_char "," n = false) names.
Proof.
  intros Ht Hset. exists (split "," s).
  rewrite (default_method_set _ _ _ Hset).
  split; [destruct Ht as [-> | [-> | ->]]; reflexivity|].
  split; [apply join_split | apply split_pieces_plain].
Qed.

Lemma list_tunable_join_gives_text_witness :
  exists names,
    default_method UNAUTHORIZED_USERS {[ "EG_UNAUTHORIZED_USERS" := "root,,admin" ]}
      = Ok (VList names) /\
    join "," names = "root,,admin" /\
    Forall (fun n => mem_char "," n = false) names.
Proof.
  apply (list_tunable_join_gives_text UNAUTHORIZED_USERS).
  - right. left. reflexivity.
  - vm_compute. reflexivity.
Defined.

(** *** Errors and independence of the tunables *)

(** X5: a [@default] method raises only for the two integer tunables and
    only when the variable is set, and what it raises is the ValueError of
    [int]; every other tunable, and every tunable whose variable is unset,
    yields a value. *)
Theorem default_method_raises_only_bad_int (t : tunable) (environ : gmap string string) :
  (forall e,
     default_method t environ = Raise e ->
     int_tunable t /\
     (exists s, environ !! env_key t = Some s /\ py_int (VStr s) = Raise e) /\
     exists msg, e = ValueError msg) /\
  (~ int_tunable t \/ environ !! env_key t = None ->
   exists v, default_method t environ = Ok v).
Proof.
  destruct (environ !! env_key t) as [s|] eqn:Hkey.
  - rewrite (default_method_set _ _ _ Hkey). split.
    + intros e.
      destruct t; simpl; try discriminate;
        (destruct (int_of_str s) eqn:Hint; [discriminate|]; intros [= <-];
         split; [unfold int_tunable; auto|];
         split; [exists s; split; [reflexivity | rewrite Hint; reflexivity]
                | eexists; reflexivity]).
    + intros [Hnot | Hnone]; [|discriminate Hnone].
      destruct t; simpl; try (eexists; reflexivity);
        exfalso; apply Hnot; unfold int_tunable; auto.
  - rewrite (default_method_unset _ _ Hkey). split; [discriminate|].
    intros _. eexists. reflexivity.
Qed.

Lemma default_method_raises_only_bad_int_witness :
  int_tunable MAX_KERNELS_PER_USER /\
  (exists s, ({[ "EG_MAX_KERNELS_PER_USER" := "many" ]} : gmap string string)
               !! env_key MAX_KERNELS_PER_USER = Some s) /\
  exists v, default_method REMOTE_HOSTS {[ "EG_MAX_KERNELS_PER_USER" := "many" ]} = Ok v.
Proof.
  destruct (default_method_raises_only_bad_int MAX_KERNELS_PER_USER
              {[ "EG_MAX_KERNELS_PER_USER" := "many" ]}) as [Hraise _].
  edestruct Hraise as (Hint & (s & Hset & _) & _); [vm_compute; reflexivity|].
  destruct (default_method_raises_only_bad_int REMOTE_HOSTS
              {[ "EG_MAX_KERNELS_PER_USER" := "many" ]}) as [_ Hvalue].
  split; [exact Hint|]. split; [exists s; exact Hset|].
  apply Hvalue. left. unfold int_tunable. intros [H|H]; discriminate H.
Defined.

Lemma env_key_inj (t1 t2 : tunable) : env_key t1 = env_key t2 -> t1 = t2.
Proof. destruct t1, t2; simpl; intros H; first [reflexivity | discriminate H]. Qed.

(** X6: no two tunables share an environment variable, and the value a
    tunable resolves to does not depend on the variable of any other
    tunable: setting or changing that one leaves this one as it was. *)
Theorem default_method_ignores_other_variables (t other : tunable) (v : string)
    (environ : gmap string string) :
  t <> other ->
  env_key t <> env_key other /\
  default_method t (<[env_key other := v]> environ) = default_method t environ.
Proof.
  intros Hne.
  assert (Hkeys : env_key other <> env_key t)
    by (intros Heq; apply Hne; symmetry; apply env_key_inj; exact Heq).
  split; [congruence|].
  destruct (environ !! env_key t) as [s|] eqn:Hkey.
  - rewrite (default_method_set _ _ s Hkey).
    apply default_method_set. rewrite lookup_insert_ne by exact Hkeys. exact Hkey.
  - rewrite (default_method_unset _ _ Hkey).
    apply default_method_unset. rewrite lookup_insert_ne by exact Hkeys. exact Hkey.
Qed.

Lemma default_method_ignores_other_variables_witness :
  env_key REMOTE_HOSTS <> env_key UNAUTHORIZED_USERS /\
  default_method REMOTE_HOSTS
    (<[env_key UNAUTHORIZED_USERS := "root,admin"]> {[ "EG_REMOTE_HOSTS" := "h1,h2" ]})
  = default_method REMOTE_HOSTS {[ "EG_REMOTE_HOSTS" := "h1,h2" ]}.
Proof.
  apply (default_method_ignores_other_variables REMOTE_HOSTS UNAUTHORIZED_USERS).
  discriminate.
Defined.

(** X7: impersonation_enabled always resolves from its [@default] method
    to a boolean, never to an error, and to true exactly when
    EG_IMPERSONATION_ENABLED is set to one of the spellings of "true" in
    upper and lower case letters; unset, empty or any other text is false. *)
Theorem impersonation_enabled_default_total (environ : gmap string string) :
  exists b,
    impersonation_enabled_default environ = Ok (VBool b) /\
    (b = true <->
     exists c1 c2 c3 c4,
       environ !! impersonation_enabled_env
         = Some (String c1 (String c2 (String c3 (String c4 EmptyString)))) /\
       (c1 = "t" \/ c1 = "T")%char /\ (c2 = "r" \/ c2 = "R")%char /\
       (c3 = "u" \/ c3 = "U")%char /\ (c4 = "e" \/ c4 = "E")%char).
Proof.
  destruct (environ !! impersonation_enabled_env) as [s|] eqn:Hkey.
  - exists (spec_bool_of_env s). split; [apply impersonation_enabled_reads; exact Hkey|].
    unfold spec_bool_of_env. rewrite bool_decide_eq_true, lower_is_true.
    split.
    + intros (c1 & c2 & c3 & c4 & -> & H). exists c1, c2, c3, c4. auto.
    + intros (c1 & c2 & c3 & c4 & [= ->] & H). exists c1, c2, c3, c4. auto.
  - exists false. split.
    + unfold impersonation_enabled_default. rewrite (getenv_unset _ _ _ Hkey). reflexivity.
    + split; [discriminate|]. intros (c1 & c2 & c3 & c4 & Hs & _). discriminate Hs.
Qed.

(** *** What [init_configurables] adds to the trace *)

Lemma init_configurables_added (t : Traits) (d : Deps) (app : App) :
  added app (snd (init_configurables t d app)) =
  construction_events t d ++ [StartSessions] ++
  match prespawn_verdict t with None => personality_events t | Some _ => [] end.
Proof.
  apply added_trace. rewrite init_configurables_run.
  destruct (prespawn_verdict t); reflexivity.
Qed.

(** X8: [init_configurables] returns normally exactly when every call it
    makes on its collaborators returns, the API module has a
    [create_personality] attribute, and it is not the case that a prespawn
    count and a max-kernels limit are both set and non-zero with the count
    above the limit; a count equal to the limit, an unset or zero count and
    an unset or zero limit all pass the check. *)
Theorem init_configurables_returns_iff (o : Outcomes) (t : Traits) (d : Deps) (app : App) :
  fst (init_configurables_with o t d app) = Ok tt <->
  (forall e,
     e ∈ construction_events t d ++ [StartSessions] ++ personality_events t ->
     raises o e = None) /\
  has_create_personality o = true /\
  ~ (exists p m, prespawn_count t = Some p /\ max_kernels t = Some m /\
                 p <> 0 /\ m <> 0 /\ m < p).
Proof.
  rewrite init_configurables_with_run. cbn [fst]. unfold init_outcome, personality_events.
  split.
  - destruct (first_failure o (construction_events t d ++ [StartSessions]))
      as [[pre x]|] eqn:Hbefore; [discriminate|].
    destruct (prespawn_verdict t) as [x|] eqn:Hv; [discriminate|].
    destruct (raises o (LoadApiModule (api t))) as [x|] eqn:Hload; [discriminate|].
    destruct (has_create_personality o); [|discriminate].
    destruct (first_failure o [CreatePersonality; PersonalityInitConfigurables])
      as [[pre x]|] eqn:Hafter; [discriminate|].
    intros _. split; [|split; [reflexivity|]].
    + intros e He. rewrite app_assoc in He. apply elem_of_app in He as [He|He].
      * apply (proj1 (first_failure_none o _) Hbefore). exact He.
      * apply elem_of_cons in He as [-> | He]; [exact Hload|].
        apply (proj1 (first_failure_none o _) Hafter). exact He.
    + intros (p & m & Hp & Hm & Hp0 & Hm0 & Hlt).
      rewrite (prespawn_verdict_over t p m Hp Hm Hp0 Hm0 Hlt) in Hv. discriminate Hv.
  - intros (Hall & Hattr & Hnot).
    assert (Hbefore : first_failure o (construction_events t d ++ [StartSessions]) = None).
    { apply first_failure_none. intros e He. apply Hall.
      rewrite app_assoc. apply elem_of_app. left. exact He. }
    assert (Hafter : first_failure o [CreatePersonality; PersonalityInitConfigurables] = None).
    { apply first_failure_none. intros e He. apply Hall.
      rewrite app_assoc. apply elem_of_app. right. apply elem_of_cons. right. exact He. }
    assert (Hload : raises o (LoadApiModule (api t)) = None).
    { apply Hall. rewrite app_assoc. apply elem_of_app. right.
      apply elem_of_cons. left. reflexivity. }
    rewrite Hbefore, Hload, Hattr, Hafter.
    destruct (prespawn_verdict t) as [x|] eqn:Hv; [|reflexivity].
    exfalso. apply Hnot.
    destruct (prespawn_verdict_some t x Hv) as (p & m & _ & Hp & Hm & Hp0 & Hm0 & Hlt).
    exists p, m. auto.
Qed.

(** X9: when a seed notebook is configured it is loaded before the kernel
    manager is built (and no kernel manager is built before it); when none
    is configured no notebook is loaded at all. *)
Theorem seed_notebook_loaded_before_kernel_manager (t : Traits) (d : Deps) (app : App) :
  (forall uri,
     seed_uri t = Some uri ->
     exists l1 l2 l3,
       added app (snd (init_configurables t d app))
         = l1 ++ LoadNotebook uri :: l2 ++ NewKernelManager (kwargs_of t) :: l3 /\
       forall k, NewKernelManager k ∉ l1) /\
  (seed_uri t = None ->
   forall uri, LoadNotebook uri ∉ added app (snd (init_configurables t d app))).
Proof.
  rewrite init_configurables_added. unfold construction_events, personality_events.
  split.
  - intros uri ->.
    exists [NewKernelSpecManager], [NewKernelSpecManagerOfClass]. eexists.
    split; [reflexivity|]. intros k. absent.
  - intros -> uri.
    destruct (has_initialize_culler d), (prespawn_verdict t); simpl; absent.
Qed.

Lemma seed_notebook_loaded_before_kernel_manager_witness :
  let t := mkTraits (Some "seed.ipynb") EmptyString None None
             "kernel_gateway.notebook_http" None "127.0.0.1" 8888 false {[ "root" ]} 30 in
  let d := mkDeps true "gateway" "1.0" ∅ in
  exists l1 l2 l3,
    added app0 (snd (init_configurables t d app0))
      = l1 ++ LoadNotebook "seed.ipynb" :: l2 ++ NewKernelManager (kwargs_of t) :: l3 /\
    forall k, NewKernelManager k ∉ l1.
Proof.
  intros t d.
  apply (proj1 (seed_notebook_loaded_before_kernel_manager t d app0)). reflexivity.
Defined.

(** X10: the only warning [init_configurables] ever logs is the one about
    culling, and it logs it exactly when the kernel manager has no
    [initialize_culler]. *)
Theorem init_configurables_warns_iff (t : Traits) (d : Deps) (app : App) (w : string) :
  LogWarning w ∈ added app (snd (init_configurables t d app)) <->
  has_initialize_culler d = false /\ w = culler_warning.
Proof.
  rewrite init_configurables_added. unfold construction_events, personality_events.
  destruct (has_initialize_culler d).
  - split; [|intros [Hf _]; discriminate Hf].
    destruct (seed_uri t), (prespawn_verdict t); simpl; absent.
  - split.
    + intros Hin. split; [reflexivity|].
      destruct (seed_uri t), (prespawn_verdict t); simpl in Hin;
        repeat (apply elem_of_cons in Hin as [Hin|Hin];
                [first [discriminate Hin | injection Hin as ->; reflexivity]|]);
        apply elem_of_nil in Hin; destruct Hin.
    + intros [_ ->].
      destruct (seed_uri t), (prespawn_verdict t); simpl;
        rewrite !elem_of_cons; auto 10.
Qed.

(** X11: the kernel manager and the kernel session manager are built with
    the same keyword arguments: no default kernel name when the configured
    name is empty, the configured name otherwise. *)
Theorem default_kernel_name_passed_iff_given (t : Traits) (d : Deps) (app : App) :
  exists k,
    NewKernelManager k ∈ added app (snd (init_configurables t d app)) /\
    NewKernelSessionManager k ∈ added app (snd (init_configurables t d app)) /\
    (forall k',
       NewKernelManager k' ∈ added app (snd (init_configurables t d app)) \/
       NewKernelSessionManager k' ∈ added app (snd (init_configurables t d app)) ->
       k' = k) /\
    ((default_kernel_name t = EmptyString /\ k = None) \/
     (default_kernel_name t <> EmptyString /\ k = Some (default_kernel_name t))).
Proof.
  exists (kwargs_of t).
  rewrite init_configurables_added. unfold construction_events, personality_events.
  split; [|split; [|split]].
  - destruct (seed_uri t), (has_initialize_culler d); simpl; rewrite !elem_of_cons; auto 10.
  - destruct (seed_uri t), (has_initialize_culler d); simpl; rewrite !elem_of_cons; auto 10.
  - intros k' [Hin|Hin];
      destruct (seed_uri t), (has_initialize_culler d), (prespawn_verdict t);
      simpl in Hin;
      repeat (apply elem_of_cons in Hin as [Hin|Hin];
              [first [discriminate Hin | injection Hin as ->; reflexivity]|]);
      apply elem_of_nil in Hin; destruct Hin.
  - unfold kwargs_of. destruct (default_kernel_name t) as [|c rest]; simpl.
    + left. split; reflexivity.
    + right. split; [discriminate | reflexivity].
Qed.

(** *** What [init_webapp] leaves alone *)

(** X12: [init_webapp] changes no setting other than 'allow_remote_access'
    and 'ws_ping_interval': every other key holds what the superclass put
    there, and a key the superclass did not set stays unset. *)
Theorem init_webapp_keeps_other_settings (t : Traits) (d : Deps) (app : App)
    (key : string) :
  key <> "allow_remote_access" -> key <> "ws_ping_interval" ->
  settings (snd (init_webapp t d app)) !! key = web_app_settings d !! key.
Proof.
  intros Hremote Hping. rewrite init_webapp_run. cbn [snd settings].
  rewrite lookup_insert_ne by congruence.
  rewrite lookup_insert_ne by congruence.
  reflexivity.
Qed.

Lemma init_webapp_keeps_other_settings_witness :
  let t := mkTraits None EmptyString None None "kernel_gateway.jupyter_websocket"
             None "127.0.0.1" 8888 false {[ "root" ]} 30 in
  let d := mkDeps true "gateway" "1.0" {[ "base_url" := VStr "/" ]} in
  settings (snd (init_webapp t d app0)) !! "base_url" = web_app_settings d !! "base_url".
Proof.
  intros t d. apply (init_webapp_keeps_other_settings t d app0 "base_url"); discriminate.
Defined.

(** X13: the stored 'ws_ping_interval' is 0, the value that disables the
    ping, exactly when the configured interval is 0; the configured seconds
    are recovered from the stored value by dividing by 1000, and a negative
    interval is stored negative. *)
Theorem init_webapp_ping_disabled_iff_zero (t : Traits) (d : Deps) (app : App) :
  (settings (snd (init_webapp t d app)) !! "ws_ping_interval" = Some (VInt 0) <->
   ws_ping_interval t = 0) /\
  (forall v, settings (snd (init_webapp t d app)) !! "ws_ping_interval" = Some (VInt v) ->
             v / 1000 = ws_ping_interval t /\ v mod 1000 = 0 /\
             (v < 0 <-> ws_ping_interval t < 0)).
Proof.
  rewrite init_webapp_run. cbn [snd settings]. rewrite lookup_insert_eq.
  split.
  - split; [intros [= H]; lia | intros ->; reflexivity].
  - intros v [= <-]. split; [apply Z.div_mul; lia|].
    split; [apply Z.mod_mul; lia | lia].
Qed.

Lemma init_webapp_ping_disabled_iff_zero_witness :
  let t := mkTraits None EmptyString None None "kernel_gateway.jupyter_websocket"
             None "127.0.0.1" 8888 false {[ "root" ]} 30 in
  let d := mkDeps true "gateway" "1.0" ∅ in
  30000 / 1000 = ws_ping_interval t /\ 30000 mod 1000 = 0 /\
  (30000 < 0 <-> ws_ping_interval t < 0).
Proof.
  intros t d.
  apply (proj2 (init_webapp_ping_disabled_iff_zero t d app0) 30000).
  vm_compute. reflexivity.
Defined.

(** *** What [start] adds to the trace *)

Lemma start_added (t : Traits) (d : Deps) (o : loop_outcome) (app : App) :
  added app (snd (start t d o app)) = start_events t d o.
Proof. apply added_trace. rewrite start_run. reflexivity. Qed.

(** X14: however the IO loop ends, by returning or by a KeyboardInterrupt,
    [start] returns normally, and [shutdown] is called exactly once, as the
    last thing it does, after the loop was started. *)
Theorem start_shuts_down_once_and_returns (t : Traits) (d : Deps) (o : loop_outcome)
    (app : App) :
  fst (start t d o app) = Ok tt /\
  exists l,
    added app (snd (start t d o app)) = l ++ [Shutdown] /\
    (Shutdown ∉ l) /\ IOLoopStart ∈ l.
Proof.
  rewrite start_added, start_run. split; [reflexivity|].
  exists ([SuperStart; LogInfo (available_message t d)] ++
          (if impersonation_enabled t && bool_decide (lower (getuser d) ∉ unauthorized_users t)
           then [LogWarning (impersonation_warning (getuser d))] else []) ++
          [IOLoopCurrent; SignalSignal SIGHUP SIG_IGN;
           SignalSignal SIGTERM Handler_signal_stop; IOLoopStart] ++
          match o with
          | LoopReturned => []
          | LoopInterrupted => [LogInfo "Interrupted..."; SignalSignal SIGINT SIG_IGN]
          end).
  unfold start_events.
  destruct (impersonation_enabled t && bool_decide (lower (getuser d) ∉ unauthorized_users t)),
    o; simpl.
  all: split; [reflexivity|].
  all: split; [absent | rewrite !elem_of_cons; auto 20].
Qed.

(** X15: before the IO loop is started, SIGHUP is set to be ignored and
    SIGTERM is bound to [_signal_stop], and SIGINT is left alone; SIGINT is
    set to be ignored afterwards exactly when the loop was interrupted. *)
Theorem start_installs_signals_before_loop (t : Traits) (d : Deps) (o : loop_outcome)
    (app : App) :
  exists l1 l2,
    added app (snd (start t d o app)) = l1 ++ IOLoopStart :: l2 /\
    SignalSignal SIGHUP SIG_IGN ∈ l1 /\
    SignalSignal SIGTERM Handler_signal_stop ∈ l1 /\
    (forall h, SignalSignal SIGINT h ∉ l1) /\
    (IOLoopStart ∉ l1) /\
    (SignalSignal SIGINT SIG_IGN ∈ l2 <-> o = LoopInterrupted).
Proof.
  rewrite start_added.
  exists ([SuperStart; LogInfo (available_message t d)] ++
          (if impersonation_enabled t && bool_decide (lower (getuser d) ∉ unauthorized_users t)
           then [LogWarning (impersonation_warning (getuser d))] else []) ++
          [IOLoopCurrent; SignalSignal SIGHUP SIG_IGN;
           SignalSignal SIGTERM Handler_signal_stop]).
  exists (match o with
          | LoopReturned => []
          | LoopInterrupted => [LogInfo "Interrupted..."; SignalSignal SIGINT SIG_IGN]
          end ++ [Shutdown]).
  unfold start_events.
  destruct (impersonation_enabled t && bool_decide (lower (getuser d) ∉ unauthorized_users t));
    simpl.
  all: split; [reflexivity|].
  all: split; [rewrite !elem_of_cons; auto 10|].
  all: split; [rewrite !elem_of_cons; auto 10|].
  all: split; [intros h; absent|].
  all: split; [absent|].
  all: destruct o; simpl; split.
  all: first [ absent
             | discriminate
             | intros _; reflexivity
             | solve [intros _; rewrite !elem_of_cons; auto] ].
Qed.

(** X16: for a gateway user whose name is made of ASCII characters none
    of which is an upper-case letter, [start] logs the impersonation
    warning exactly when impersonation is enabled and that name is not a
    member of the unauthorized users. *)
Theorem start_warning_for_lowercase_user (t : Traits) (d : Deps) (o : loop_outcome)
    (app : App) :
  is_ascii_str (getuser d) = true ->
  lower (getuser d) = getuser d ->
  LogWarning (impersonation_warning (getuser d)) ∈ added app (snd (start t d o app)) <->
  impersonation_enabled t = true /\ getuser d ∉ unauthorized_users t.
Proof.
  intros _ Hlow. rewrite start_added, start_warns_iff, Hlow. reflexivity.
Qed.

Lemma start_warning_for_lowercase_user_witness :
  let t := mkTraits None EmptyString None None "kernel_gateway.jupyter_websocket"
             None "127.0.0.1" 8888 true {[ "root" ]} 30 in
  let d := mkDeps true "gateway" "1.0" ∅ in
  LogWarning (impersonation_warning (getuser d))
    ∈ added app0 (snd (start t d LoopReturned app0)) <->
  impersonation_enabled t = true /\ getuser d ∉ unauthorized_users t.
Proof.
  intros t d. apply (start_warning_for_lowercase_user t d LoopReturned app0).
  - vm_compute. reflexivity.
  - vm_compute. reflexivity.
Defined.

(** X17: the only warning [start] ever logs is the impersonation warning
    naming the gateway user, and with impersonation disabled it logs no
    warning at all. *)
Theorem start_warns_only_about_impersonation (t : Traits) (d : Deps) (o : loop_outcome)
    (app : App) (w : string) :
  LogWarning w ∈ added app (snd (start t d o app)) ->
  impersonation_enabled t = true /\ w = impersonation_warning (getuser d).
Proof.
  rewrite start_added. unfold start_events.
  destruct (impersonation_enabled t); simpl.
  - destruct (bool_decide (lower (getuser d) ∉ unauthorized_users t)), o; simpl; intros Hin;
      repeat (apply elem_of_cons in Hin as [Hin|Hin];
              [first [discriminate Hin | injection Hin as ->; split; reflexivity]|]);
      apply elem_of_nil in Hin; destruct Hin.
  - destruct o; simpl; absent.
Qed.

Lemma start_warns_only_about_impersonation_witness :
  let t := mkTraits None EmptyString None None "kernel_gateway.jupyter_websocket"
             None "127.0.0.1" 8888 true {[ "root" ]} 30 in
  let d := mkDeps true "gateway" "1.0" ∅ in
  impersonation_enabled t = true /\
  impersonation_warning "gateway" = impersonation_warning (getuser d).
Proof.
  intros t d.
  apply (start_warns_only_about_impersonation t d LoopReturned app0
           (impersonation_warning "gateway")).
  apply (bool_decide_unpack _). vm_compute. exact I.
Defined.

(** *** The deferred stop *)

Lemma stop_work_concat (cbs : list callback) :
  stop_work cbs = concat (replicate (length cbs) [HttpServerStop; IOLoopStop]).
Proof.
  induction cbs as [|cb rest IH]; [reflexivity|].
  unfold stop_work in *. simpl. rewrite IH. reflexivity.
Qed.

Lemma stop_then_run (n : nat) (app : App) :
  (stop_times n ;; run_callbacks) app =
  (Ok tt, mkApp (settings app) []
            (trace app ++ stop_work (callbacks app ++ replicate n Closure_stop))).
Proof.
  unfold bind. rewrite stop_times_run. unfold run_callbacks.
  cbn [settings callbacks trace]. rewrite run_all_run. reflexivity.
Qed.

(** X18: [stop()] itself stops nothing; when the IO loop next runs its
    queue, each queued call stops the HTTP server and then, directly after
    it, the IO loop, in the order the calls were made, and the queue is left
    empty. *)
Theorem stop_defers_and_orders_work (n : nat) (app : App) :
  added app (snd (stop_times n app)) = [] /\
  added app (snd ((stop_times n ;; run_callbacks) app))
    = concat (replicate (length (callbacks app) + n) [HttpServerStop; IOLoopStop]) /\
  callbacks (snd ((stop_times n ;; run_callbacks) app)) = [] /\
  settings (snd ((stop_times n ;; run_callbacks) app)) = settings app.
Proof.
  split.
  - apply added_trace. rewrite stop_times_run. cbn [snd trace]. rewrite app_nil_r. reflexivity.
  - rewrite stop_then_run. cbn [snd settings callbacks].
    split; [|split; reflexivity].
    apply added_trace. cbn [trace].
    rewrite stop_work_concat, length_app, length_replicate. reflexivity.
Qed.
